(** * MobiParse: a shallow embedding of SumatraPDF's MOBI/PalmDOC reader

    The development follows [src/MobiParse.cpp] function by function.

    Conventions of the embedding.
    - Integers are [Z]; every conversion between C integer types is written
      out ([to_u8], [to_i16], [to_i32], [to_u32], [to_size]).  The width of
      [size_t] depends on the build, so it is a parameter ([arch]).
    - A buffer is the list of the bytes of the C object it lives in.  A read
      or a write through a pointer is a lookup or an update at an index; an
      access outside the object has no meaning in C and yields [Undef].
    - A function that reports an error ([false], [NULL], [-1]) yields [Fail].
    - [assert] is the C macro: it documents what the author expects and
      compiles to nothing in a release build, so it does not appear in the
      definitions; the places where the code relies on it alone are quoted
      in the comments.
    - Allocation ([malloc], [memdup], [SAZA], [new]) is taken to succeed. *)

From Stdlib Require Import ZArith Lia List Bool.
From stdpp Require Import base tactics option list list_numbers.
Import ListNotations.
Local Open Scope Z_scope.

(** ** Outcomes *)

Inductive outcome (A : Type) : Type :=
| Ret (a : A)   (* the call returns normally with [a] *)
| Fail          (* the call reports an error: false, NULL or -1 *)
| Undef.        (* an access outside a C object: no defined behaviour *)
Arguments Ret {A} a.
Arguments Fail {A}.
Arguments Undef {A}.

Definition bind {A B} (m : outcome A) (k : A -> outcome B) : outcome B :=
  match m with
  | Ret a => k a
  | Fail => Fail
  | Undef => Undef
  end.

Declare Scope outcome_scope.
Delimit Scope outcome_scope with outcome.
Notation "'let*' x := m 'in' k" := (bind m (fun x => k))
  (at level 10, x pattern, m at level 100, k at level 200) : outcome_scope.
Local Open Scope outcome_scope.

Definition succeeds {A} (m : outcome A) : bool :=
  match m with Ret _ => true | _ => false end.

(** ** Machine integers *)

Inductive arch := Win32 | Win64.

Definition size_bits (a : arch) : Z :=
  match a with Win32 => 32 | Win64 => 64 end.

Definition to_unsigned (bits x : Z) : Z := x mod 2 ^ bits.
Definition to_signed (bits x : Z) : Z :=
  (x + 2 ^ (bits - 1)) mod 2 ^ bits - 2 ^ (bits - 1).

Definition to_u8 := to_unsigned 8.
Definition to_u16 := to_unsigned 16.
Definition to_u32 := to_unsigned 32.
Definition to_i16 := to_signed 16.
Definition to_i32 := to_signed 32.
Definition to_size (a : arch) := to_unsigned (size_bits a).

(** ** Buffers *)

(** [p[i]] read through a pointer [p] to the first byte of [buf]. *)
Definition rd (buf : list Z) (i : Z) : outcome Z :=
  if (0 <=? i) && (i <? Z.of_nat (length buf)) then
    match buf !! Z.to_nat i with
    | Some v => Ret v
    | None => Undef
    end
  else Undef.

(** [p[i] = v]. *)
Definition wr (buf : list Z) (i v : Z) : outcome (list Z) :=
  if (0 <=? i) && (i <? Z.of_nat (length buf))
  then Ret (<[Z.to_nat i := v]> buf)
  else Undef.

(** Big-endian fields: the source reads the field in host (little-endian)
    order and swaps it with [BEtoHs]/[BEtoHl]. *)
Definition be16 (b0 b1 : Z) : Z := Z.lor (Z.shiftl b0 8) b1.
Definition be32 (b0 b1 b2 b3 : Z) : Z :=
  Z.lor (Z.shiftl b0 24) (Z.lor (Z.shiftl b1 16) (Z.lor (Z.shiftl b2 8) b3)).

Definition rd_be16 (buf : list Z) (i : Z) : outcome Z :=
  let* b0 := rd buf i in let* b1 := rd buf (i + 1) in Ret (be16 b0 b1).
Definition rd_be32 (buf : list Z) (i : Z) : outcome Z :=
  let* b0 := rd buf i in let* b1 := rd buf (i + 1) in
  let* b2 := rd buf (i + 2) in let* b3 := rd buf (i + 3) in Ret (be32 b0 b1 b2 b3).

(** ** PalmDoc decompression: [PalmdocUncompress] *)

(** [while (c > 0) { *dst++ = *src++; --c; }] *)
Fixpoint copy_raw (c : nat) (src : list Z) (s : Z) (dst : list Z) (d : Z)
  : outcome (Z * Z * list Z) :=
  match c with
  | O => Ret (s, d, dst)
  | S c' =>
      let* v := rd src s in
      let* dst' := wr dst d v in
      copy_raw c' src (s + 1) dst' (d + 1)
  end.

(** [while (n > 0) { *dst++ = *dstBack++; --n; }] *)
Fixpoint copy_back (n : nat) (dst : list Z) (d dstBack : Z)
  : outcome (Z * list Z) :=
  match n with
  | O => Ret (d, dst)
  | S n' =>
      let* v := rd dst dstBack in
      let* dst' := wr dst d v in
      copy_back n' dst' (d + 1) (dstBack + 1)
  end.

Section Palmdoc.
Variable a : arch.
(** [src] and [dst] are the objects the two pointers point into; [srcLen]
    and [dstLen] are the lengths the caller declares. *)
Variables (src : list Z) (srcLen : Z) (dstLen : Z).

(** One turn of the [while (src < srcEnd)] loop; [s] and [d] are
    [src - srcOrig] and [dst - dstOrig]. *)
Definition PalmdocUncompress_step (dst : list Z) (s d : Z)
  : outcome (Z * Z * list Z) :=
  let dstLeft := to_size a (dstLen - d) in
  if dstLeft =? 0 then Fail else
  let* c := rd src s in
  let s := s + 1 in
  if (1 <=? c) && (c <=? 8) then
    if dstLeft <? c then Fail
    else copy_raw (Z.to_nat c) src s dst d
  else if c <? 128 then
    let* dst1 := wr dst d c in
    Ret (s, d + 1, dst1)
  else if 192 <=? c then
    if dstLeft <? 2 then Fail
    else
      let* dst1 := wr dst d 32 in
      let* dst2 := wr dst1 (d + 1) (to_u8 (Z.lxor c 128)) in
      Ret (s, d + 2, dst2)
  else
    if s <? srcLen then
      let* b := rd src s in
      let s := s + 1 in
      let c := Z.lor (Z.shiftl c 8) b in
      let back := Z.land (Z.shiftr c 3) 2047 in
      let n := Z.land c 7 + 3 in
      let dstBack := d - back in
      (* only [assert(dstBack >= dstOrig)] and [assert(dstLeft >= n)] *)
      let* (d', dst') := copy_back (Z.to_nat n) dst d dstBack in
      Ret (s, d', dst')
    else Ret (s, d, dst).

(** After the loop: the terminating zero, then [return dst - dstOrig]. *)
Definition PalmdocUncompress_finish (dst : list Z) (d : Z)
  : outcome (Z * list Z) :=
  if d <? dstLen then
    let* dst' := wr dst d 0 in
    Ret (to_size a d, dst')
  else Ret (to_size a d, dst).

(** Every turn consumes at least one source byte, so [srcLen - s] turns
    are enough ([PalmdocUncompress_loop_fuel] below). *)
Fixpoint PalmdocUncompress_loop (fuel : nat) (dst : list Z) (s d : Z)
  : outcome (Z * list Z) :=
  match fuel with
  | O => PalmdocUncompress_finish dst d
  | S fuel' =>
      if s <? srcLen then
        let* (s', d', dst') := PalmdocUncompress_step dst s d in
        PalmdocUncompress_loop fuel' dst' s' d'
      else PalmdocUncompress_finish dst d
  end.

(** The result is the returned size and the final contents of [dst]. *)
Definition PalmdocUncompress (dst : list Z) : outcome (Z * list Z) :=
  PalmdocUncompress_loop (Z.to_nat srcLen) dst 0 0.
End Palmdoc.

(** ** The byte source *)

(** Modelled from the spec: the Byte Source.  The file is read through the
    Win32 calls [ReadFile], [SetFilePointer] and through [file::GetSize]
    (FileUtil), none of which is under src/.  A source has a total length
    and a content at every position below it, delivered as a byte
    ([to_u8]); a read returns the bytes that are available, at most the
    number asked for. *)
Record File := { fsize : Z; fdata : Z -> Z }.

Definition file_of_list (l : list Z) : File :=
  {| fsize := Z.of_nat (length l);
     fdata := fun i => default 0 (l !! Z.to_nat i) |}.

(** [ReadFile(h, buf, n, &bytesRead, NULL)] with the file pointer at [pos]:
    the bytes read; [bytesRead] is their number. *)
Definition ReadFile (f : File) (pos n : Z) : list Z :=
  (fun p => to_u8 (fdata f p)) <$> seqZ pos (Z.min n (fsize f - pos)).

(** [SetFilePointer(h, off, NULL, FILE_BEGIN)]: the distance is a signed
    32-bit [LONG]; a negative one is refused ([INVALID_SET_FILE_POINTER]). *)
Definition SetFilePointer (off : Z) : outcome Z :=
  let dist := to_i32 off in
  if dist <? 0 then Fail else Ret dist.

(** [file::GetSize(fileName)], a [size_t]. *)
Definition GetSize (a : arch) (f : File) : Z := to_size a (fsize f).

(** ** Layout of the Palm database header *)

(** MobiParse.h, which declares [PdbHeader], [PdbRecordHeader],
    [kPdbHeaderLen] and [kPdbRecordHeaderLen], is not under src/: the sizes
    and the offsets of the fields the code reads are parameters.  From the
    calls [SwapI16(pdbHeader.numRecords)] and [SwapI32(recHeaders[i].offset)]
    (references to [int16_t] and [int32_t]) the two fields are signed. *)
Record PdbLayout := {
  kPdbHeaderLen : Z;
  pdbHeader_type : Z;        (* offset of [type], 8 chars *)
  pdbHeader_numRecords : Z;  (* offset of [numRecords] *)
  kPdbRecordHeaderLen : Z;
  recHeader_offset : Z       (* offset of [offset] in a record header *)
}.

(** The layout of the Palm database format. *)
Definition palm_layout : PdbLayout :=
  {| kPdbHeaderLen := 78; pdbHeader_type := 60; pdbHeader_numRecords := 76;
     kPdbRecordHeaderLen := 8; recHeader_offset := 0 |}.

(** A member of a struct that was read in full: the bytes are there. *)
Definition field (img : list Z) (off : Z) : Z :=
  default 0 (img !! Z.to_nat off).
Definition field_be16 (img : list Z) (off : Z) : Z :=
  be16 (field img off) (field img (off + 1)).
Definition field_be32 (img : list Z) (off : Z) : Z :=
  be32 (field img off) (field img (off + 1))
       (field img (off + 2)) (field img (off + 3)).

(** [str::EqN(s1, s2, n)] (StrUtil): the first [n] chars agree. *)
Definition EqN (s1 s2 : list Z) (n : nat) : bool :=
  bool_decide (take n s1 = take n s2).

Definition PALMDOC_TYPE_CREATOR : list Z := [84; 69; 88; 116; 82; 69; 65; 100].
Definition MOBI_TYPE_CREATOR : list Z := [66; 79; 79; 75; 77; 79; 66; 73].
Definition MOBI_ID : list Z := [77; 79; 66; 73].
Definition HUFF_ID : list Z := [72; 85; 70; 70].

Definition COMPRESSION_NONE := 1.
Definition COMPRESSION_PALM := 2.
Definition COMPRESSION_HUFF := 17480.
Definition ENCRYPTION_NONE := 0.
Definition kPalmDocHeaderLen := 16.
Definition kHuffHeaderLen := 24.

Definition IsMobiPdb (L : PdbLayout) (pdbHdr : list Z) : bool :=
  EqN (drop (Z.to_nat (pdbHeader_type L)) pdbHdr) MOBI_TYPE_CREATOR 8.
Definition IsPalmDocPdb (L : PdbLayout) (pdbHdr : list Z) : bool :=
  EqN (drop (Z.to_nat (pdbHeader_type L)) pdbHdr) PALMDOC_TYPE_CREATOR 8.

Definition IsValidCompression (comprType : Z) : bool :=
  (COMPRESSION_NONE =? comprType) || (COMPRESSION_PALM =? comprType)
  || (COMPRESSION_HUFF =? comprType).

(** ** The record table: first part of [ParseHeader], [GetRecordSize],
    [ReadRecord] *)

(** [recHeaders[i].offset] for an index inside the table. *)
Definition offset_at (recHeaders : list Z) (i : Z) : Z :=
  default 0 (recHeaders !! Z.to_nat i).

(** The loop that validates the offsets. *)
Definition offsets_valid (recHeaders : list Z) (numRecords : Z) : bool :=
  forallb (fun i => negb (offset_at recHeaders (i + 1) <? offset_at recHeaders i))
          (seqZ 0 numRecords).

(** [SwapI32(recHeaders[i].offset)] for each record, then the sentinel
    [recHeaders[numRecords].offset = fileSize] ([size_t] to [int32_t]);
    [tbl] holds the record headers as read from the file. *)
Definition recHeaders_of (L : PdbLayout) (tbl : list Z) (numRecords fileSize : Z)
  : list Z :=
  ((fun i => to_i32 (field_be32 tbl (i * kPdbRecordHeaderLen L + recHeader_offset L)))
     <$> seqZ 0 numRecords)
  ++ [to_i32 fileSize].

Section Container.
Variables (a : arch) (L : PdbLayout) (f : File).

(** [ParseHeader] up to the end of the offset validation.  The result is
    [isMobi], [pdbHeader.numRecords] and the [offset] fields of
    [recHeaders] (its other fields are never read). *)
Definition ParseHeader_pdb : outcome (bool * Z * list Z) :=
  let pdbHeader := ReadFile f 0 (kPdbHeaderLen L) in
  if negb (Z.of_nat (length pdbHeader) =? kPdbHeaderLen L) then Fail else
  let* isMobi :=
    if IsMobiPdb L pdbHeader then Ret true
    else if IsPalmDocPdb L pdbHeader then Ret false
    else Fail in
  let numRecords := to_i16 (field_be16 pdbHeader (pdbHeader_numRecords L)) in
  if numRecords <? 1 then Fail else
  let toRead := to_u32 (kPdbRecordHeaderLen L * numRecords) in
  let tbl := ReadFile f (kPdbHeaderLen L) toRead in
  if negb (Z.of_nat (length tbl) =? toRead) then Fail else
  let fileSize := GetSize a f in
  let recHeaders := recHeaders_of L tbl numRecords fileSize in
  if offsets_valid recHeaders numRecords then Ret (isMobi, numRecords, recHeaders)
  else Fail.

(** The record count and the offset table as [ParseHeader] reads them
    from a file whose two leading reads are complete. *)
Definition stored_numRecords : Z :=
  to_i16 (field_be16 (ReadFile f 0 (kPdbHeaderLen L)) (pdbHeader_numRecords L)).
Definition stored_recHeaders : list Z :=
  recHeaders_of L
    (ReadFile f (kPdbHeaderLen L) (to_u32 (kPdbRecordHeaderLen L * stored_numRecords)))
    stored_numRecords (GetSize a f).

Variable recHeaders : list Z.

Definition GetRecordSize (recNo : Z) : outcome Z :=
  let* o1 := rd recHeaders (to_size a (recNo + 1)) in
  let* o0 := rd recHeaders recNo in
  (* an [int] difference converted to [size_t] *)
  Ret (to_size a (to_i32 (o1 - o0))).

(** The data of the record; [sizeOut] is its length. *)
Definition ReadRecord (recNo : Z) : outcome (list Z) :=
  let* o := rd recHeaders recNo in
  let off := to_size a o in
  let* size := GetRecordSize recNo in
  let toRead := to_u32 size in
  let* pos := SetFilePointer off in
  let buf := ReadFile f pos toRead in
  if negb (Z.of_nat (length buf) =? toRead) then Fail else Ret buf.
End Container.

(** ** The record buffers: [GetBufForRecordData] *)

(** The two buffers of [MobiParse] for record data: [bufStatic], an array
    member whose size MobiParse.h fixes (a parameter here), and [bufDynamic],
    a heap block ([None] is NULL, [Some c] a block of [c] bytes) with the
    size recorded in [bufDynamicSize]. *)
Record RecordBufs := { bufDynamic : option Z; bufDynamicSize : Z }.

Inductive RecordBuf := BufStatic | BufDynamic.

(** The constructor: [bufDynamic(NULL), bufDynamicSize(0)]. *)
Definition new_RecordBufs : RecordBufs := {| bufDynamic := None; bufDynamicSize := 0 |}.

(** The buffer returned and the members afterwards. *)
Definition GetBufForRecordData (sizeof_bufStatic : Z) (st : RecordBufs) (size : Z)
  : RecordBuf * RecordBufs :=
  if size <=? sizeof_bufStatic then (BufStatic, st)
  else if size <=? bufDynamicSize st then (BufDynamic, st)
  else (BufDynamic, {| bufDynamic := Some size; bufDynamicSize := size |}).

(** The number of bytes the buffer [b] can hold. *)
Definition capacity (sizeof_bufStatic : Z) (st : RecordBufs) (b : RecordBuf) : Z :=
  match b with
  | BufStatic => sizeof_bufStatic
  | BufDynamic => default 0 (bufDynamic st)
  end.

(** A run of requests: the sizes asked for, each with the buffer returned
    and the members after the call. *)
Fixpoint GetBuf_run (sizeof_bufStatic : Z) (st : RecordBufs) (sizes : list Z)
  : list (Z * RecordBuf * RecordBufs) :=
  match sizes with
  | [] => []
  | size :: sizes' =>
      let '(b, st') := GetBufForRecordData sizeof_bufStatic st size in
      (size, b, st') :: GetBuf_run sizeof_bufStatic st' sizes'
  end.

(** [ReadRecord] above yields the data read into the buffer, not the buffer:
    each caller uses or copies the data before the next record is read. *)

(** ** The Huffman dictionary: [HuffDicDecompressor] *)

Record Dict1Entry := { codeLen : Z; term : Z; maxCode : Z }.

Definition set_codeLen (v : Z) (e : Dict1Entry) : Dict1Entry :=
  {| codeLen := v; term := term e; maxCode := maxCode e |}.
Definition set_term (v : Z) (e : Dict1Entry) : Dict1Entry :=
  {| codeLen := codeLen e; term := v; maxCode := maxCode e |}.
Definition set_maxCode (v : Z) (e : Dict1Entry) : Dict1Entry :=
  {| codeLen := codeLen e; term := term e; maxCode := v |}.

(** [baseTable] is kept as its offset in [huffmanData]. *)
Record HuffDicDecompressor := {
  huffmanData : option (list Z);
  baseTable : Z;
  baseTableLen : Z;
  dict1 : list Dict1Entry
}.

(** The constructor sets [huffmanData] and [baseTable] to NULL and leaves
    [dict1] as it is; no entry is read before it is written, and the model
    starts from zeros. *)
Definition new_HuffDicDecompressor : HuffDicDecompressor :=
  {| huffmanData := None; baseTable := 0; baseTableLen := 0;
     dict1 := replicate 256 {| codeLen := 0; term := 0; maxCode := 0 |} |}.

(** The body of the loop of [UnpackCacheData] for one [i]: [inl] is
    [return false], [inr] goes on; both carry [dict1] as written so far. *)
Definition UnpackCacheData_entry (v : Z) (i : nat) (d : list Dict1Entry)
  : list Dict1Entry + list Dict1Entry :=
  let cl := Z.land v 31 in
  let d := alter (set_codeLen cl) i d in
  if cl =? 0 then inl d else
  let t := Z.land v 128 in
  let d := alter (set_term t) i d in
  if (cl <=? 8) && (t =? 0) then inl d else
  let maxCode := Z.shiftr v 8 in
  let maxCode := to_u32 (to_u32 (Z.shiftl (maxCode + 1) (32 - cl)) - 1) in
  inr (alter (set_maxCode maxCode) i d).

(** [for (i = 0; i < 256; i++)], counted by [n] turns from [i] on; [cache]
    is the offset of the table in [data].  The result is the returned bool
    with [dict1]. *)
Fixpoint UnpackCacheData_loop (n : nat) (i : nat) (data : list Z) (cache : Z)
    (d : list Dict1Entry) : outcome (bool * list Dict1Entry) :=
  match n with
  | O => Ret (true, d)
  | S n' =>
      let* v := rd_be32 data (cache + 4 * Z.of_nat i) in
      match UnpackCacheData_entry v i d with
      | inl d' => Ret (false, d')
      | inr d' => UnpackCacheData_loop n' (S i) data cache d'
      end
  end.

Definition UnpackCacheData (data : list Z) (cache : Z) (d : list Dict1Entry)
  : outcome (bool * list Dict1Entry) :=
  UnpackCacheData_loop 256 0 data cache d.

(** [SwapU32(x)] on a field that lives at offset [i] of [buf]: the field is
    rewritten in host order in place; the result is its value. *)
Definition SwapU32_at (buf : list Z) (i : Z) : outcome (Z * list Z) :=
  let* b0 := rd buf i in
  let* b1 := rd buf (i + 1) in
  let* b2 := rd buf (i + 2) in
  let* b3 := rd buf (i + 3) in
  let* buf := wr buf i b3 in
  let* buf := wr buf (i + 1) b2 in
  let* buf := wr buf (i + 2) b1 in
  let* buf := wr buf (i + 3) b0 in
  Ret (be32 b0 b1 b2 b3, buf).

(** [huffData] is the object the pointer points into, [huffDataLen] the
    length the caller declares.  The header fields are swapped in the
    caller's buffer before it is copied, so the copy holds them swapped. *)
Definition SetHuffData (this : HuffDicDecompressor) (huffData : list Z)
    (huffDataLen : Z) : outcome HuffDicDecompressor :=
  if huffDataLen <? kHuffHeaderLen then Fail else
  let* (hdrLen, huffData) := SwapU32_at huffData 4 in
  let* (cacheOffset, huffData) := SwapU32_at huffData 8 in
  let* (baseTableOffset, huffData) := SwapU32_at huffData 12 in
  let* id0 := rd huffData 0 in
  let* id1 := rd huffData 1 in
  let* id2 := rd huffData 2 in
  let* id3 := rd huffData 3 in
  if negb (EqN HUFF_ID [id0; id1; id2; id3] 4) then Fail else
  if negb (hdrLen =? kHuffHeaderLen) then Fail else
  if negb (baseTableOffset =? to_u32 (cacheOffset + 1024)) then Fail else
  if huffDataLen <=? baseTableOffset then Fail else
  if negb (huffDataLen <=? Z.of_nat (length huffData)) then Undef else
  let data := take (Z.to_nat huffDataLen) huffData in        (* memdup *)
  (* [UnpackCacheData(cache);] the returned bool is dropped *)
  let* (_, d) := UnpackCacheData data cacheOffset (dict1 this) in
  Ret {| huffmanData := Some data;
         baseTable := baseTableOffset;
         baseTableLen := huffDataLen - baseTableOffset;
         dict1 := d |}.

Definition AddCdicData (this : HuffDicDecompressor) (cdicData : list Z)
    (cdicDataLen : Z) : outcome HuffDicDecompressor :=
  Fail.

(** ** [MobiParse]: the document header, second part of [ParseHeader] *)

(** The members of the class that the code of this file reads.  Their types
    are declared in MobiParse.h: [docRecCount], [docUncompressedSize] and
    [trailersCount] are taken to be [size_t], [compressionType] an [int]. *)
Record MobiParse := {
  isMobi : bool;
  numRecords : Z;
  recHeaders : list Z;
  docRecCount : Z;
  compressionType : Z;
  docUncompressedSize : Z;
  multibyte : bool;
  trailersCount : Z;
  huffDic : option HuffDicDecompressor;
  doc : list Z
}.

(** [while (flags > 1) { if (0 != (flags & 2)) trailersCount++; flags = flags >> 1; }]
    A [uint16_t] is below 2^16, so 16 turns are enough ([trailers_loop_fuel]). *)
Fixpoint trailers_loop (a : arch) (fuel : nat) (flags trailersCount : Z) : Z :=
  match fuel with
  | O => trailersCount
  | S fuel' =>
      if 1 <? flags then
        let trailersCount :=
          if negb (Z.land flags 2 =? 0) then to_size a (trailersCount + 1)
          else trailersCount in
        trailers_loop a fuel' (to_u16 (Z.shiftr flags 1)) trailersCount
      else trailersCount
  end.

(** The [if (hasExtraFlags)] block: [multibyte] and [trailersCount], which
    the constructor set to [false] and 0. *)
Definition DecodeExtraDataFlags (a : arch) (flags : Z) : bool * Z :=
  (negb (Z.land flags 1 =? 0), trailers_loop a 16 flags 0).

(** [SwapU32] on each of the fields at the offsets [offs], values unused. *)
Fixpoint swap_fields (buf : list Z) (offs : list Z) : outcome unit :=
  match offs with
  | [] => Ret tt
  | o :: offs' => let* _ := rd_be32 buf o in swap_fields buf offs'
  end.

(** Offsets in [MobiHeader], a packed struct of 232 bytes. *)
Definition mobiHdr_hdrLen := 4.
Definition mobiHdr_huffmanFirstRec := 96.
Definition mobiHdr_huffmanRecCount := 100.
Definition mobiHdr_extraDataFlags := 226.

Section Parse.
Variables (a : arch) (L : PdbLayout) (f : File).

(** [for (size_t i = 1; i < mobiHdr->huffmanRecCount; i++)], [n] turns
    from [i] on. *)
Fixpoint AddCdic_loop (recHeaders : list Z) (huffmanFirstRec : Z) (n : nat)
    (i : Z) (hd : HuffDicDecompressor) : outcome HuffDicDecompressor :=
  match n with
  | O => Ret hd
  | S n' =>
      let* recData := ReadRecord a f recHeaders (to_size a (huffmanFirstRec + i)) in
      let recSize := Z.of_nat (length recData) in
      let* hd' := AddCdicData hd recData recSize in
      AddCdic_loop recHeaders huffmanFirstRec n' (i + 1) hd'
  end.

(** [ParseHeader] from [ReadRecord(0, recLeft)] on.  [SwapI16]/[SwapU32]
    on a field of [firstRecData] reads and rewrites it in place; every
    field is swapped once and read only afterwards, so the model reads it
    big-endian. *)
Definition ParseHeader_doc (isMobi : bool) (numRecords : Z) (recHeaders : list Z)
  : outcome MobiParse :=
  let* buf := ReadRecord a f recHeaders 0 in
  let recLeft := Z.of_nat (length buf) in
  let firstRecData := buf in
  let recLeft := to_size a (recLeft - kPalmDocHeaderLen) in
  let* compressionType := rd_be16 firstRecData 0 in
  let compressionType := to_i16 compressionType in
  let* uncompressedDocSize := rd_be32 firstRecData 4 in
  let uncompressedDocSize := to_i32 uncompressedDocSize in
  let* recordsCount := rd_be16 firstRecData 8 in
  let recordsCount := to_i16 recordsCount in
  if negb (IsValidCompression compressionType) then Fail else
  let* _ :=
    if isMobi then
      (* [mobi.encrType] is read in host order, it is not swapped *)
      let* e0 := rd firstRecData 12 in
      let* e1 := rd firstRecData 13 in
      if negb (to_i16 (be16 e1 e0) =? ENCRYPTION_NONE) then Fail else Ret tt
    else Ret tt in
  let st := {| isMobi := isMobi; numRecords := numRecords;
               recHeaders := recHeaders;
               docRecCount := to_size a recordsCount;
               compressionType := compressionType;
               docUncompressedSize := to_size a uncompressedDocSize;
               multibyte := false; trailersCount := 0;
               huffDic := None; doc := [] |} in
  if recLeft =? 0 then Ret st else
  if recLeft <? 8 then Fail else
  let m := kPalmDocHeaderLen in
  let* id0 := rd firstRecData m in
  let* id1 := rd firstRecData (m + 1) in
  let* id2 := rd firstRecData (m + 2) in
  let* id3 := rd firstRecData (m + 3) in
  if negb (EqN MOBI_ID [id0; id1; id2; id3] 4) then Fail else
  let* hdrLen := rd_be32 firstRecData (m + mobiHdr_hdrLen) in
  let* _ := swap_fields firstRecData
              [m + 8; m + 12; m + 20; m + 64; m + 68; m + 72; m + 76; m + 88; m + 92] in
  let* huffmanFirstRec := rd_be32 firstRecData (m + mobiHdr_huffmanFirstRec) in
  let* huffmanRecCount := rd_be32 firstRecData (m + mobiHdr_huffmanRecCount) in
  let* _ := swap_fields firstRecData [m + 104; m + 108; m + 112] in
  if recLeft <? hdrLen then Fail else
  let recLeft := to_size a (recLeft - hdrLen) in
  let hasExtraFlags := 228 <=? hdrLen in
  let* (multibyte, trailersCount) :=
    if hasExtraFlags then
      let* flags := rd_be16 firstRecData (m + mobiHdr_extraDataFlags) in
      Ret (DecodeExtraDataFlags a flags)
    else Ret (false, 0) in
  let* huffDic :=
    if compressionType =? COMPRESSION_HUFF then
      let* recData := ReadRecord a f recHeaders huffmanFirstRec in
      let recSize := Z.of_nat (length recData) in
      let* hd := SetHuffData new_HuffDicDecompressor recData recSize in
      let* hd := AddCdic_loop recHeaders huffmanFirstRec
                   (Z.to_nat (huffmanRecCount - 1)) 1 hd in
      Ret (Some hd)
    else Ret None in
  Ret {| isMobi := isMobi; numRecords := numRecords;
         recHeaders := recHeaders;
         docRecCount := to_size a recordsCount;
         compressionType := compressionType;
         docUncompressedSize := to_size a uncompressedDocSize;
         multibyte := multibyte; trailersCount := trailersCount;
         huffDic := huffDic; doc := [] |}.

Definition ParseHeader : outcome MobiParse :=
  let* (isMobi, numRecords, recHeaders) := ParseHeader_pdb a L f in
  ParseHeader_doc isMobi numRecords recHeaders.
End Parse.

(** ** Loading the records: [ExtraDataSize], [LoadDocRecordIntoBuffer],
    [LoadDocument], [ParseFile] *)

(** The inner loop [for (j = 0; j < 4; j++)] of [ExtraDataSize], [k] turns
    from [j] on; [n] is a [uint32_t]. *)
Fixpoint trailer_len (a : arch) (recData : list Z) (newLen : Z) (k : nat)
    (j n : Z) : outcome Z :=
  match k with
  | O => Ret n
  | S k' =>
      let* v := rd recData (to_size a (newLen - 4 + j)) in
      let n := if negb (Z.land v 128 =? 0) then 0 else n in
      let n := to_u32 (Z.lor (Z.shiftl n 7) (Z.land v 127)) in
      trailer_len a recData newLen k' (j + 1) n
  end.

(** The outer loop [for (i = 0; i < trailersCount; i++)], [k] turns.
    Only [assert(newLen > 4)] and [assert(newLen > n)] guard the
    subtraction. *)
Fixpoint strip_trailers (a : arch) (recData : list Z) (k : nat) (newLen : Z)
  : outcome Z :=
  match k with
  | O => Ret newLen
  | S k' =>
      let* n := trailer_len a recData newLen 4 0 0 in
      strip_trailers a recData k' (to_size a (newLen - n))
  end.

Definition ExtraDataSize (a : arch) (recData : list Z) (recLen trailersCount : Z)
    (multibyte : bool) : outcome Z :=
  let newLen := recLen in
  let* newLen := strip_trailers a recData (Z.to_nat trailersCount) newLen in
  let* newLen :=
    if multibyte then
      if 0 <? newLen then
        let* v := rd recData (newLen - 1) in
        let n := to_u8 (Z.land v 3 + 1) in
        (* only [assert(newLen >= n)] *)
        Ret (to_size a (newLen - n))
      else Ret newLen
    else Ret newLen in
  Ret (to_size a (recLen - newLen)).

(** [strOut.Append(s, n)]: [n] chars are read from [s]. *)
Definition Append (strOut s : list Z) (n : Z) : outcome (list Z) :=
  if n <=? Z.of_nat (length s) then Ret (strOut ++ take (Z.to_nat n) s)
  else Undef.

Section Load.
Variables (a : arch) (f : File).
(** What the local [char buf[6000]] of [LoadDocRecordIntoBuffer] holds on
    entry. *)
Variable stack_buf : list Z.
Variable this : MobiParse.

Definition LoadDocRecordIntoBuffer (recNo : Z) (strOut : list Z)
  : outcome (list Z) :=
  let* recData := ReadRecord a f (recHeaders this) recNo in
  let recSize := Z.of_nat (length recData) in
  let* extraSize :=
    ExtraDataSize a recData recSize (trailersCount this) (multibyte this) in
  let recSize := to_size a (recSize - extraSize) in
  if COMPRESSION_NONE =? compressionType this then
    Append strOut recData recSize
  else if COMPRESSION_PALM =? compressionType this then
    let* (uncompressedSize, buf) :=
      PalmdocUncompress a recData recSize 6000 stack_buf in
    Append strOut buf uncompressedSize
  else if COMPRESSION_HUFF =? compressionType this then
    Fail
  else Fail.

(** [for (size_t i = 1; i <= docRecCount; i++)], [n] turns from [i] on:
    [docRecCount] turns in all.  (With [docRecCount] at the largest
    [size_t] the test never fails; the table has far fewer entries, and
    [ReadRecord] leaves the table before [i] gets there.) *)
Fixpoint LoadDocument_loop (n : nat) (i : Z) (doc : list Z)
  : outcome (list Z) :=
  match n with
  | O => Ret doc
  | S n' =>
      let* doc' := LoadDocRecordIntoBuffer i doc in
      LoadDocument_loop n' (i + 1) doc'
  end.

(** After the loop there is [assert(docUncompressedSize == doc.Size())]
    and [return true]. *)
Definition LoadDocument : outcome MobiParse :=
  let* d := LoadDocument_loop (Z.to_nat (docRecCount this)) 1 (doc this) in
  Ret {| isMobi := isMobi this; numRecords := numRecords this;
         recHeaders := recHeaders this;
         docRecCount := docRecCount this;
         compressionType := compressionType this;
         docUncompressedSize := docUncompressedSize this;
         multibyte := multibyte this; trailersCount := trailersCount this;
         huffDic := huffDic this; doc := d |}.
End Load.

Definition ParseFile (a : arch) (L : PdbLayout) (stack_buf : list Z) (f : File)
  : outcome MobiParse :=
  let* mb := ParseHeader a L f in
  LoadDocument a f stack_buf mb.

(** ** Specification vocabulary *)

Definition is_byte (b : Z) : Prop := 0 <= b < 256.

(** The number of set bits of [flags] at the [k] positions from [lo] on. *)
Fixpoint count_set_bits (flags lo : Z) (k : nat) : Z :=
  match k with
  | O => 0
  | S k' => (if Z.testbit flags lo then 1 else 0) + count_set_bits flags (lo + 1) k'
  end.

(** The type/creator tag as [ParseHeader] reads it. *)
Definition stored_type (L : PdbLayout) (f : File) : list Z :=
  take 8 (drop (Z.to_nat (pdbHeader_type L)) (ReadFile f 0 (kPdbHeaderLen L))).

(** A byte that the decoder emits as it is: the branch [c < 128] outside
    the run lengths 1 to 8. *)
Definition is_literal (c : Z) : bool := (c =? 0) || ((9 <=? c) && (c <? 128)).

(** An encoder for the two simplest opcode classes: a literal stands for
    itself, any other byte is sent as a raw run of length 1. *)
Definition palmdoc_escape (text : list Z) : list Z :=
  flat_map (fun b => if is_literal b then [b] else [1; b]) text.

(** A cache entry that [UnpackCacheData] rejects: code length 0, or a code
    of at most 8 bits that is not marked as terminal. *)
Definition bad_cache_entry (v : Z) : Prop :=
  Z.land v 31 = 0 \/ (Z.land v 31 <= 8 /\ Z.land v 128 = 0).

(** The [dict1] entry that [UnpackCacheData] stores for the cache word [v]. *)
Definition unpacked_entry (v : Z) : Dict1Entry :=
  {| codeLen := Z.land v 31;
     term := Z.land v 128;
     maxCode := to_u32 (to_u32 (Z.shiftl (Z.shiftr v 8 + 1) (32 - Z.land v 31)) - 1) |}.

(** [bufDynamicSize] never exceeds the size of the block [bufDynamic]. *)
Definition bufs_ok (st : RecordBufs) : Prop :=
  bufDynamicSize st <= default 0 (bufDynamic st).

(** ** Files used in the examples *)

(** A scratch buffer of 6000 zero bytes. *)
Definition zero_buf : list Z := replicate (Z.to_nat 6000) 0.


Definition be16_bytes (v : Z) : list Z := [v / 256 mod 256; v mod 256].
Definition be32_bytes (v : Z) : list Z :=
  [v / 16777216 mod 256; v / 65536 mod 256; v / 256 mod 256; v mod 256].

(** A database in [palm_layout]: the header with the type/creator [tag] and
    the record count, one record header per offset, then the records. *)
Definition pdb_image (tag : list Z) (offs : list Z) (body : list Z) : list Z :=
  replicate 60 0 ++ tag ++ replicate 8 0 ++ be16_bytes (Z.of_nat (length offs))
  ++ flat_map (fun o => be32_bytes o ++ [0; 0; 0; 0]) offs ++ body.

(** The 16 bytes of a [PalmDocHeader]; [tail] is the last field. *)
Definition palmdoc_header (compression size count : Z) (tail : list Z) : list Z :=
  be16_bytes compression ++ [0; 0] ++ be32_bytes size ++ be16_bytes count
  ++ [16; 0] ++ tail.

(** The 232 bytes of a [MobiHeader] with the fields the code uses. *)
Definition mobi_header (hdrLen first cnt flags : Z) : list Z :=
  MOBI_ID ++ be32_bytes hdrLen ++ replicate 88 0 ++ be32_bytes first
  ++ be32_bytes cnt ++ replicate 122 0 ++ be16_bytes flags ++ [0; 0; 0; 0].

(** A HUFF record: the 24-byte header, a cache of 256 entries that are all
    zero, one byte of base table. *)
Definition huff_zero_cache : list Z :=
  HUFF_ID ++ be32_bytes 24 ++ be32_bytes 24 ++ be32_bytes 1048
  ++ replicate 8 0 ++ replicate 1024 0 ++ [0].

(** A PalmDoc file: record 0 is the header (no compression, 4 bytes of
    text, one text record), record 1 is the text. *)
Definition file_plain : File :=
  file_of_list (pdb_image PALMDOC_TYPE_CREATOR [94; 110]
                  (palmdoc_header 1 4 1 [0; 0; 0; 0] ++ [97; 98; 99; 100])).

(** The same file with a declared size of 5. *)
Definition file_short : File :=
  file_of_list (pdb_image PALMDOC_TYPE_CREATOR [94; 110]
                  (palmdoc_header 1 5 1 [0; 0; 0; 0] ++ [97; 98; 99; 100])).

(** A file of 4 GiB + 102 bytes: one record, the header, at offset 86;
    everything after it is zero. *)
Definition file_4g : File :=
  {| fsize := 2 ^ 32 + 102;
     fdata := fun i =>
       default 0 (pdb_image PALMDOC_TYPE_CREATOR [86]
                    (palmdoc_header 1 0 0 [0; 0; 0; 0]) !! Z.to_nat i) |}.

(** A MOBI file whose header carries encryption type 1. *)
Definition file_encrypted : File :=
  file_of_list (pdb_image MOBI_TYPE_CREATOR [94; 342]
                  (palmdoc_header 2 4 1 [0; 1; 0; 0] ++ mobi_header 232 0 0 0
                   ++ [97; 98; 99; 100])).

(** A MOBI file with extra data flags [flags]; record 1 is [rec1]. *)
Definition file_flags (flags : Z) (rec1 : list Z) : File :=
  file_of_list (pdb_image MOBI_TYPE_CREATOR [94; 342]
                  (palmdoc_header 1 4 1 [0; 0; 0; 0] ++ mobi_header 232 0 0 flags
                   ++ rec1)).

(** A MOBI file with Huffman compression; [cnt] dictionary records are
    declared, the first one is record 1; record 2 is a text record. *)
Definition file_huff (cnt : Z) : File :=
  file_of_list (pdb_image MOBI_TYPE_CREATOR [102; 350; 1399]
                  (palmdoc_header 17480 4 1 [0; 0; 0; 0] ++ mobi_header 232 1 cnt 0
                   ++ huff_zero_cache ++ [97; 98; 99; 100])).

(** A PalmDoc-compressed file whose text record is 5999 literals followed
    by a back-reference of length 10. *)
Definition file_overrun : File :=
  file_of_list (pdb_image PALMDOC_TYPE_CREATOR [94; 110]
                  (palmdoc_header 2 6009 1 [0; 0; 0; 0]
                   ++ replicate (Z.to_nat 5999) 65 ++ [128; 15])).

(** A file of 100 zero bytes: no type/creator tag. *)
Definition file_unknown : File := file_of_list (replicate 100 0).

(** A PalmDoc file whose header declares compression type 3. *)
Definition file_badcomp : File :=
  file_of_list (pdb_image PALMDOC_TYPE_CREATOR [94; 110]
                  (palmdoc_header 3 4 1 [0; 0; 0; 0] ++ [97; 98; 99; 100])).

(** A PalmDoc file whose record 0 has 4 bytes after the PalmDoc header. *)
Definition file_short_ext : File :=
  file_of_list (pdb_image PALMDOC_TYPE_CREATOR [94; 114]
                  (palmdoc_header 1 4 1 [0; 0; 0; 0] ++ MOBI_ID ++ [97; 98; 99; 100])).

(** A MOBI file whose record 0 ends after the id and the length (8) of the
    MOBI header. *)
Definition file_small_mobi : File :=
  file_of_list (pdb_image MOBI_TYPE_CREATOR [94; 118]
                  (palmdoc_header 1 4 1 [0; 0; 0; 0] ++ MOBI_ID ++ be32_bytes 8
                   ++ [97; 98; 99; 100])).

(** A PalmDoc-compressed file whose text record is [palmdoc_escape [72; 200]]. *)
Definition file_palm : File :=
  file_of_list (pdb_image PALMDOC_TYPE_CREATOR [94; 110]
                  (palmdoc_header 2 2 1 [0; 0; 0; 0] ++ [72; 1; 200])).

(** The members after [ParseHeader] on [file_plain] and on [file_palm]. *)
Definition plain_state : MobiParse :=
  {| isMobi := false; numRecords := 2; recHeaders := [94; 110; 114];
     docRecCount := 1; compressionType := 1; docUncompressedSize := 4;
     multibyte := false; trailersCount := 0; huffDic := None; doc := [] |}.
Definition palm_state : MobiParse :=
  {| isMobi := false; numRecords := 2; recHeaders := [94; 110; 113];
     docRecCount := 1; compressionType := 2; docUncompressedSize := 2;
     multibyte := false; trailersCount := 0; huffDic := None; doc := [] |}.

(** * Verification *)

(** ** Basic facts *)

Example palmdoc_literals :
  PalmdocUncompress Win32 [72; 105] 2 4 [9; 9; 9; 9] = Ret (2, [72; 105; 0; 9]).
Proof. reflexivity. Qed.

Example palmdoc_overlap :
  PalmdocUncompress Win32 [97; 98; 128; 17] 4 6 [0; 0; 0; 0; 0; 0]
  = Ret (6, [97; 98; 97; 98; 97; 98]).
Proof. reflexivity. Qed.

Lemma rd_Ret (buf : list Z) i v :
  rd buf i = Ret v <-> 0 <= i /\ buf !! Z.to_nat i = Some v.
Proof.
  unfold rd. destruct (Z.leb_spec 0 i); cbn [andb].
  - destruct (Z.ltb_spec i (Z.of_nat (length buf))).
    + destruct (buf !! Z.to_nat i) eqn:E; split; intros H'; try discriminate.
      * inversion H'; subst; auto.
      * destruct H' as [_ H']; congruence.
      * destruct H' as [_ H']; discriminate.
    + split; [discriminate|]. intros [_ H']. apply lookup_lt_Some in H'. lia.
  - split; [discriminate | lia].
Qed.

Lemma rd_in_range (buf : list Z) i :
  0 <= i < Z.of_nat (length buf) -> exists v, rd buf i = Ret v.
Proof.
  intros Hi. destruct (lookup_lt_is_Some_2 buf (Z.to_nat i)) as [v Hv]; [lia|].
  exists v. apply rd_Ret. split; [lia | done].
Qed.

Lemma wr_in_range (buf : list Z) i v :
  0 <= i < Z.of_nat (length buf) -> wr buf i v = Ret (<[Z.to_nat i := v]> buf).
Proof.
  intros Hi. unfold wr.
  destruct (Z.leb_spec 0 i); [|lia]. destruct (Z.ltb_spec i (Z.of_nat (length buf))); [|lia].
  reflexivity.
Qed.

Lemma copy_back_spec (n : nat) : forall (dst : list Z) d back,
  0 <= back <= d -> d + Z.of_nat n <= Z.of_nat (length dst) ->
  exists dst',
    copy_back n dst d (d - back) = Ret (d + Z.of_nat n, dst')
    /\ length dst' = length dst
    /\ (forall j, 0 <= j -> j < d \/ d + Z.of_nat n <= j ->
          dst' !! Z.to_nat j = dst !! Z.to_nat j)
    /\ (forall i, 0 <= i < Z.of_nat n ->
          dst' !! Z.to_nat (d + i) = dst' !! Z.to_nat (d - back + i)).
Proof.
  induction n as [|n IH]; intros dst d back Hb Hlen.
  - exists dst. simpl. rewrite Z.add_0_r. repeat split; auto. intros; lia.
  - destruct (rd_in_range dst (d - back)) as [v Hv]; [lia|].
    cbn [copy_back]. rewrite Hv. cbn [bind].
    rewrite wr_in_range by lia. cbn [bind].
    set (dst1 := <[Z.to_nat d := v]> dst).
    assert (Hl1 : length dst1 = length dst) by apply length_insert.
    destruct (IH dst1 (d + 1) back) as (dst' & Hrun & Hl & Hout & Hper); [lia | lia |].
    replace (d - back + 1) with (d + 1 - back) by lia.
    exists dst'. rewrite Hrun.
    split; [f_equal; f_equal; lia|].
    split; [congruence|].
    assert (Hd : dst' !! Z.to_nat d = Some v).
    { rewrite Hout by lia. unfold dst1. apply list_lookup_insert_eq. lia. }
    split.
    + intros j Hj0 Hj. rewrite Hout by lia. unfold dst1.
      apply list_lookup_insert_ne. lia.
    + intros i Hi. destruct (Z.eq_dec i 0) as [->|Hi0].
      * rewrite !Z.add_0_r. rewrite Hd.
        destruct (Z.eq_dec back 0) as [->|Hb0].
        { rewrite Z.sub_0_r. auto. }
        rewrite Hout by lia. unfold dst1.
        rewrite list_lookup_insert_ne by lia.
        apply rd_Ret in Hv. symmetry. apply Hv.
      * specialize (Hper (i - 1)).
        replace (d + 1 + (i - 1)) with (d + i) in Hper by lia.
        replace (d + 1 - back + (i - 1)) with (d - back + i) in Hper by lia.
        apply Hper. lia.
Qed.

(** The bytes produced repeat the [back] bytes that precede them. *)
Lemma forward_copy_pattern (dst dst' : list Z) d back n :
  1 <= back <= d ->
  (forall j, 0 <= j -> j < d \/ d + n <= j -> dst' !! Z.to_nat j = dst !! Z.to_nat j) ->
  (forall i, 0 <= i < n -> dst' !! Z.to_nat (d + i) = dst' !! Z.to_nat (d - back + i)) ->
  forall i, 0 <= i < n ->
    dst' !! Z.to_nat (d + i) = dst !! Z.to_nat (d - back + i mod back).
Proof.
  intros Hb Hout Hper i Hi.
  assert (H : forall k : nat, forall i, 0 <= i < n -> i < Z.of_nat k ->
            dst' !! Z.to_nat (d + i) = dst !! Z.to_nat (d - back + i mod back)).
  { induction k as [|k IHk]; intros i0 Hi0 Hk; [lia|].
    rewrite Hper by lia.
    destruct (Z.lt_ge_cases i0 back) as [Hlt|Hge].
    - rewrite Z.mod_small by lia. apply Hout; lia.
    - replace (d - back + i0) with (d + (i0 - back)) by lia.
      rewrite IHk by lia.
      replace i0 with (i0 - back + 1 * back) at 2 by lia.
      rewrite Z.mod_add by lia. reflexivity. }
  apply (H (Z.to_nat (i + 1))); lia.
Qed.

Lemma copy_raw_spec (c : nat) : forall (src : list Z) s (dst : list Z) d s' d' dst',
  copy_raw c src s dst d = Ret (s', d', dst') ->
  s' = s + Z.of_nat c /\ d' = d + Z.of_nat c /\ length dst' = length dst.
Proof.
  induction c as [|c IH]; intros src s dst d s' d' dst' H.
  - simpl in H. inversion H; subst. repeat split; lia.
  - cbn [copy_raw] in H.
    destruct (rd src s) as [v| |]; try discriminate. cbn [bind] in H.
    unfold wr in H.
    destruct ((0 <=? d) && (d <? Z.of_nat (length dst))); try discriminate.
    cbn [bind] in H. apply IH in H. rewrite length_insert in H. lia.
Qed.

Lemma copy_back_pos (n : nat) : forall (dst : list Z) d db d' dst',
  copy_back n dst d db = Ret (d', dst') ->
  d' = d + Z.of_nat n /\ length dst' = length dst.
Proof.
  induction n as [|n IH]; intros dst d db d' dst' H.
  - simpl in H. inversion H; subst. split; [lia | done].
  - cbn [copy_back] in H.
    destruct (rd dst db) as [v| |]; try discriminate. cbn [bind] in H.
    unfold wr in H.
    destruct ((0 <=? d) && (d <? Z.of_nat (length dst))); try discriminate.
    cbn [bind] in H. apply IH in H. rewrite length_insert in H. lia.
Qed.

Lemma to_size_range a x : 0 <= to_size a x < 2 ^ size_bits a.
Proof. unfold to_size, to_unsigned. apply Z.mod_pos_bound. destruct a; reflexivity. Qed.

Lemma to_size_small a x : 0 <= x < 2 ^ size_bits a -> to_size a x = x.
Proof. intros H. unfold to_size, to_unsigned. apply Z.mod_small. exact H. Qed.

Section PalmdocFacts.
Variables (a : arch) (src : list Z) (srcLen dstLen : Z).

Lemma PalmdocUncompress_step_advances dst s d s' d' dst' :
  PalmdocUncompress_step a src srcLen dstLen dst s d = Ret (s', d', dst') ->
  s < s' /\ length dst' = length dst.
Proof.
  unfold PalmdocUncompress_step.
  destruct (to_size a (dstLen - d) =? 0); [discriminate|].
  destruct (rd src s) as [c| |]; try discriminate. cbn [bind].
  destruct ((1 <=? c) && (c <=? 8)).
  { destruct (to_size a (dstLen - d) <? c); [discriminate|].
    intros H. apply copy_raw_spec in H. lia. }
  destruct (c <? 128).
  { unfold wr. destruct ((0 <=? d) && (d <? Z.of_nat (length dst))); [|discriminate].
    cbn [bind]. intros H; inversion H; subst. rewrite length_insert. lia. }
  destruct (192 <=? c).
  { destruct (to_size a (dstLen - d) <? 2); [discriminate|].
    unfold wr. destruct ((0 <=? d) && (d <? Z.of_nat (length dst))); [|discriminate].
    cbn [bind]. rewrite length_insert.
    destruct ((0 <=? d + 1) && (d + 1 <? Z.of_nat (length dst))); [|discriminate].
    cbn [bind]. intros H; inversion H; subst. rewrite !length_insert. lia. }
  destruct (s + 1 <? srcLen).
  - destruct (rd src (s + 1)) as [b| |]; try discriminate. cbn [bind].
    destruct (copy_back _ _ _ _) as [[d1 dst1]| |] eqn:E; try discriminate.
    cbn [bind]. intros H; inversion H; subst. apply copy_back_pos in E. lia.
  - intros H; inversion H; subst. lia.
Qed.

(** Termination of the decoding loop: any fuel of at least [srcLen - s]
    gives the same result. *)
Lemma PalmdocUncompress_loop_fuel (fuel1 : nat) : forall (fuel2 : nat) dst s d,
  srcLen - s <= Z.of_nat fuel1 -> srcLen - s <= Z.of_nat fuel2 ->
  PalmdocUncompress_loop a src srcLen dstLen fuel1 dst s d
  = PalmdocUncompress_loop a src srcLen dstLen fuel2 dst s d.
Proof.
  induction fuel1 as [|fuel1 IH]; intros fuel2 dst s d H1 H2.
  - destruct fuel2 as [|fuel2]; [reflexivity|]. cbn [PalmdocUncompress_loop].
    destruct (Z.ltb_spec s srcLen); [lia | reflexivity].
  - destruct fuel2 as [|fuel2]; cbn [PalmdocUncompress_loop].
    + destruct (Z.ltb_spec s srcLen); [lia | reflexivity].
    + destruct (Z.ltb_spec s srcLen); [|reflexivity].
      destruct (PalmdocUncompress_step a src srcLen dstLen dst s d)
        as [[[s' d'] dst']| |] eqn:E; cbn [bind]; try reflexivity.
      apply PalmdocUncompress_step_advances in E. apply IH; lia.
Qed.

(** The three branches that test [dstLeft] stay inside the declared bound. *)
Lemma PalmdocUncompress_step_checked dst s d c s' d' dst' :
  0 <= d <= dstLen -> dstLen < 2 ^ size_bits a ->
  rd src s = Ret c -> ~ (128 <= c < 192) ->
  PalmdocUncompress_step a src srcLen dstLen dst s d = Ret (s', d', dst') ->
  d' <= dstLen.
Proof.
  intros Hd Hlen Hc Hnb. unfold PalmdocUncompress_step.
  rewrite (to_size_small a (dstLen - d)) by lia.
  destruct (Z.eqb_spec (dstLen - d) 0); [discriminate|].
  rewrite Hc. cbn [bind].
  destruct ((1 <=? c) && (c <=? 8)) eqn:E18.
  { destruct (Z.ltb_spec (dstLen - d) c); [discriminate|].
    intros Hr. apply copy_raw_spec in Hr. apply andb_true_iff in E18. lia. }
  destruct (Z.ltb_spec c 128).
  { destruct (wr dst d c); try discriminate. cbn [bind].
    intros Hr; inversion Hr; subst. lia. }
  destruct (Z.leb_spec 192 c); [|lia].
  destruct (Z.ltb_spec (dstLen - d) 2); [discriminate|].
  destruct (wr dst d 32); try discriminate. cbn [bind].
  destruct (wr _ _ _); try discriminate. cbn [bind].
  intros Hr; inversion Hr; subst. lia.
Qed.

(** C3.  A turn of the decoding loop whose leading byte [c] satisfies
    [128 <= c < 192], with a next input byte [b] before [srcEnd]: the turn
    consumes both bytes, forms [v = (c << 8) | b], takes
    [back = (v >> 3) & 0x7FF] and [n = (v & 7) + 3], and copies [n] bytes
    from position [d - back] to position [d], one byte at a time in forward
    order.  Nothing outside [d, d + n) changes; each byte written equals the
    byte [back] positions before it in the final buffer, so an overlapping
    copy reads the bytes it has just written; for [back >= 1] the bytes
    written repeat the [back] bytes that preceded them.  (The source range
    must start inside [dst] and the destination must end inside it.) *)
Theorem PalmdocUncompress_step_backref dst s d c b :
  to_size a (dstLen - d) <> 0 ->
  rd src s = Ret c -> 128 <= c < 192 ->
  s + 1 < srcLen -> rd src (s + 1) = Ret b ->
  let v := Z.lor (Z.shiftl c 8) b in
  let back := Z.land (Z.shiftr v 3) 2047 in
  let n := Z.land v 7 + 3 in
  back <= d -> d + n <= Z.of_nat (length dst) ->
  exists dst',
    PalmdocUncompress_step a src srcLen dstLen dst s d = Ret (s + 2, d + n, dst')
    /\ length dst' = length dst
    /\ (forall j, 0 <= j -> j < d \/ d + n <= j ->
          dst' !! Z.to_nat j = dst !! Z.to_nat j)
    /\ (forall i, 0 <= i < n ->
          dst' !! Z.to_nat (d + i) = dst' !! Z.to_nat (d - back + i))
    /\ (1 <= back -> forall i, 0 <= i < n ->
          dst' !! Z.to_nat (d + i) = dst !! Z.to_nat (d - back + i mod back)).
Proof.
  intros Hleft Hc Hrange Hnext Hb v back n Hback Hroom.
  assert (Hback0 : 0 <= back) by (apply Z.land_nonneg; right; lia).
  assert (Hn : 3 <= n) by (unfold n; pose proof (Z.land_nonneg v 7); lia).
  destruct (copy_back_spec (Z.to_nat n) dst d back) as (dst' & Hrun & Hl & Hout & Hper);
    [lia | lia |].
  rewrite Z2Nat.id in Hrun, Hout, Hper by lia.
  exists dst'. split; [|split; [|split; [|split]]]; auto.
  - unfold PalmdocUncompress_step.
    destruct (Z.eqb_spec (to_size a (dstLen - d)) 0); [contradiction|].
    rewrite Hc. cbn [bind].
    replace ((1 <=? c) && (c <=? 8)) with false
      by (symmetry; apply andb_false_iff; right; apply Z.leb_gt; lia).
    destruct (Z.ltb_spec c 128); [lia|].
    destruct (Z.leb_spec 192 c); [lia|].
    destruct (Z.ltb_spec (s + 1) srcLen); [|lia].
    rewrite Hb. cbn [bind]. fold v. fold back. fold n.
    rewrite Hrun. cbn [bind]. f_equal. f_equal. f_equal. lia.
  - intros Hb1. apply (forward_copy_pattern dst dst' d back n); auto.
Qed.
End PalmdocFacts.

(** C1.  The back-reference branch does not test [dstLeft]: with one byte
    left below a declared bound of 2, a back-reference of length 3 is copied
    in full.  When the buffer is larger than the declared bound the call
    returns 4, with bytes written at positions 2 and 3; when the buffer has
    exactly 2 bytes the writes leave it.  In neither case is -1 returned. *)
Theorem PalmdocUncompress_backref_past_bound (a : arch) :
  PalmdocUncompress a [65; 128; 8] 3 2 [0; 0; 0; 0] = Ret (4, [65; 65; 65; 65])
  /\ PalmdocUncompress a [65; 128; 8] 3 2 [0; 0] = Undef.
Proof. destruct a; split; reflexivity. Qed.

Lemma to_i32_range x : - 2 ^ 31 <= to_i32 x < 2 ^ 31.
Proof.
  unfold to_i32, to_signed. change (32 - 1) with 31.
  pose proof (Z.mod_pos_bound (x + 2 ^ 31) (2 ^ 32) eq_refl).
  change (2 ^ 32) with (2 * 2 ^ 31) in *. lia.
Qed.

Lemma to_i32_small x : - 2 ^ 31 <= x < 2 ^ 31 -> to_i32 x = x.
Proof.
  intros H. unfold to_i32, to_signed. change (32 - 1) with 31.
  rewrite Z.mod_small; [lia|]. change (2 ^ 32) with (2 * 2 ^ 31). lia.
Qed.

Lemma to_i32_to_size a x : to_i32 (to_size a x) = to_i32 x.
Proof.
  unfold to_i32, to_signed, to_size, to_unsigned. f_equal.
  destruct a; cbn [size_bits]; change (32 - 1) with 31.
  - rewrite Z.add_mod_idemp_l by discriminate. reflexivity.
  - rewrite <- (Z.add_mod_idemp_l (x mod 2 ^ 64)) by discriminate.
    rewrite Z.mod_mod_divide by (exists (2 ^ 32); reflexivity).
    rewrite Z.add_mod_idemp_l by discriminate. reflexivity.
Qed.

Lemma to_u32_to_size a x : to_u32 (to_size a x) = to_u32 x.
Proof.
  unfold to_u32, to_size, to_unsigned.
  destruct a; cbn [size_bits].
  - apply Z.mod_mod. discriminate.
  - apply Z.mod_mod_divide. exists (2 ^ 32); reflexivity.
Qed.

Lemma to_u32_to_i32 x : to_u32 (to_i32 x) = to_u32 x.
Proof.
  unfold to_u32, to_i32, to_signed, to_unsigned. change (32 - 1) with 31.
  rewrite <- Zminus_mod_idemp_l. rewrite Z.mod_mod by discriminate.
  rewrite Zminus_mod_idemp_l. f_equal. lia.
Qed.

Lemma to_u32_small x : 0 <= x < 2 ^ 32 -> to_u32 x = x.
Proof. intros H. apply Z.mod_small. exact H. Qed.

Lemma to_u8_range x : 0 <= to_u8 x < 256.
Proof. apply (Z.mod_pos_bound x (2 ^ 8)). reflexivity. Qed.

Lemma length_ReadFile f pos n :
  Z.of_nat (length (ReadFile f pos n)) = Z.max 0 (Z.min n (fsize f - pos)).
Proof. unfold ReadFile. rewrite length_fmap, length_seqZ. lia. Qed.

Lemma ReadFile_bytes f pos n : Forall is_byte (ReadFile f pos n).
Proof.
  unfold ReadFile. apply Forall_fmap, Forall_forall. intros x _. apply to_u8_range.
Qed.

Lemma offset_at_lookup (tbl : list Z) i :
  0 <= i < Z.of_nat (length tbl) -> tbl !! Z.to_nat i = Some (offset_at tbl i).
Proof.
  intros H. unfold offset_at.
  destruct (lookup_lt_is_Some_2 tbl (Z.to_nat i)) as [v Hv]; [lia|]. rewrite Hv. done.
Qed.

Lemma length_recHeaders_of L tbl n s :
  0 <= n -> Z.of_nat (length (recHeaders_of L tbl n s)) = n + 1.
Proof.
  intros H. unfold recHeaders_of. rewrite length_app, length_fmap, length_seqZ. simpl. lia.
Qed.

Lemma recHeaders_of_sentinel L tbl n s :
  0 <= n -> offset_at (recHeaders_of L tbl n s) n = to_i32 s.
Proof.
  intros H. unfold offset_at, recHeaders_of.
  rewrite lookup_app_r; rewrite length_fmap, length_seqZ; [|lia].
  replace (Z.to_nat n - Z.to_nat n)%nat with 0%nat by lia. reflexivity.
Qed.

Lemma recHeaders_of_range L tbl n s i :
  0 <= n -> 0 <= i <= n -> - 2 ^ 31 <= offset_at (recHeaders_of L tbl n s) i < 2 ^ 31.
Proof.
  intros Hn Hi. destruct (Z.eq_dec i n) as [->|Hne].
  - rewrite recHeaders_of_sentinel by lia. apply to_i32_range.
  - unfold offset_at, recHeaders_of.
    rewrite lookup_app_l by (rewrite length_fmap, length_seqZ; lia).
    rewrite list_lookup_fmap, lookup_seqZ_lt by lia. simpl. apply to_i32_range.
Qed.

Lemma offsets_valid_spec tbl n :
  offsets_valid tbl n = true <->
  forall i, 0 <= i < n -> offset_at tbl i <= offset_at tbl (i + 1).
Proof.
  unfold offsets_valid. rewrite forallb_forall. split.
  - intros H i Hi. specialize (H i).
    rewrite <- list_elem_of_In, elem_of_seqZ in H.
    specialize (H ltac:(lia)). apply negb_true_iff, Z.ltb_ge in H. exact H.
  - intros H i Hi. rewrite <- list_elem_of_In, elem_of_seqZ in Hi.
    apply negb_true_iff, Z.ltb_ge, H. lia.
Qed.

Section ContainerFacts.
Variables (a : arch) (L : PdbLayout) (f : File).

Lemma ParseHeader_pdb_Ret isMobi n tbl :
  ParseHeader_pdb a L f = Ret (isMobi, n, tbl) ->
  n = stored_numRecords L f /\ tbl = stored_recHeaders a L f
  /\ 1 <= n /\ offsets_valid tbl n = true.
Proof.
  unfold ParseHeader_pdb, stored_recHeaders, stored_numRecords.
  destruct (negb _); [discriminate|].
  destruct (IsMobiPdb L _); [|destruct (IsPalmDocPdb L _)]; cbn [bind]; try discriminate.
  all: destruct (Z.ltb_spec (to_i16 (field_be16 (ReadFile f 0 (kPdbHeaderLen L))
                                       (pdbHeader_numRecords L))) 1); [discriminate|].
  all: destruct (negb _); [discriminate|].
  all: destruct (offsets_valid _ _) eqn:E; [|discriminate].
  all: intros H'; inversion H'; subst; auto.
Qed.

Lemma ParseHeader_pdb_defined : ParseHeader_pdb a L f <> Undef.
Proof.
  unfold ParseHeader_pdb.
  destruct (negb _); [discriminate|].
  destruct (IsMobiPdb L _); [|destruct (IsPalmDocPdb L _)]; cbn [bind]; try discriminate.
  all: destruct (_ <? 1); [discriminate|].
  all: destruct (negb _); [discriminate|].
  all: destruct (offsets_valid _ _); discriminate.
Qed.

(** C6.  Whenever the record table is accepted: the record count is at
    least 1, the table has record count + 1 entries, the last entry is the
    file size converted to [int32_t] (the file size itself when that is
    below 2^31), and every entry is at most its successor.  The parse fails
    whenever the stored record count is below 1 or some entry exceeds its
    successor. *)
Theorem ParseHeader_pdb_envelope :
  (forall isMobi n tbl,
      ParseHeader_pdb a L f = Ret (isMobi, n, tbl) ->
      1 <= n
      /\ Z.of_nat (length tbl) = n + 1
      /\ offset_at tbl n = to_i32 (GetSize a f)
      /\ (0 <= fsize f < 2 ^ 31 -> offset_at tbl n = fsize f)
      /\ (forall i, 0 <= i < n -> offset_at tbl i <= offset_at tbl (i + 1)))
  /\ (stored_numRecords L f < 1 -> ParseHeader_pdb a L f = Fail)
  /\ (forall i, 0 <= i < stored_numRecords L f ->
        offset_at (stored_recHeaders a L f) (i + 1) < offset_at (stored_recHeaders a L f) i ->
        ParseHeader_pdb a L f = Fail).
Proof.
  split; [|split].
  - intros isMobi n tbl H. apply ParseHeader_pdb_Ret in H.
    destruct H as (Hn & Htbl & Hn1 & Hv).
    split; [exact Hn1|].
    assert (Hs : offset_at tbl n = to_i32 (GetSize a f)).
    { rewrite Htbl. unfold stored_recHeaders. rewrite <- Hn.
      apply recHeaders_of_sentinel. lia. }
    split; [|split; [exact Hs | split]].
    + rewrite Htbl. unfold stored_recHeaders. rewrite <- Hn.
      apply length_recHeaders_of. lia.
    + intros Hsz. rewrite Hs. unfold GetSize. rewrite to_i32_to_size.
      apply to_i32_small. lia.
    + apply offsets_valid_spec. exact Hv.
  - intros Hlt. destruct (ParseHeader_pdb a L f) as [[[m n] tbl]| |] eqn:E.
    + apply ParseHeader_pdb_Ret in E. lia.
    + reflexivity.
    + exfalso. exact (ParseHeader_pdb_defined E).
  - intros i Hi Hbad. destruct (ParseHeader_pdb a L f) as [[[m n] tbl]| |] eqn:E.
    + apply ParseHeader_pdb_Ret in E. destruct E as (Hn & Htbl & _ & Hv).
      rewrite offsets_valid_spec in Hv. subst n tbl. specialize (Hv i Hi). lia.
    + reflexivity.
    + exfalso. exact (ParseHeader_pdb_defined E).
Qed.
End ContainerFacts.

Lemma to_i16_range x : - 2 ^ 15 <= to_i16 x < 2 ^ 15.
Proof.
  unfold to_i16, to_signed. change (16 - 1) with 15.
  pose proof (Z.mod_pos_bound (x + 2 ^ 15) (2 ^ 16) eq_refl).
  change (2 ^ 16) with (2 * 2 ^ 15) in *. lia.
Qed.

Lemma size_bits_ge_32 a : 2 ^ 32 <= 2 ^ size_bits a.
Proof. destruct a; cbn [size_bits]; [lia|]. apply Z.pow_le_mono_r; lia. Qed.

Lemma rd_lookup (buf : list Z) i v :
  0 <= i -> buf !! Z.to_nat i = Some v -> rd buf i = Ret v.
Proof. intros. apply rd_Ret. auto. Qed.

Section RecordFacts.
Variables (a : arch) (f : File).

Lemma ReadRecord_in_table (tbl : list Z) recNo o0 o1 :
  0 <= recNo -> recNo + 1 < 2 ^ 32 ->
  tbl !! Z.to_nat recNo = Some o0 ->
  tbl !! Z.to_nat (recNo + 1) = Some o1 ->
  - 2 ^ 31 <= o0 -> o0 <= o1 -> o1 < 2 ^ 31 ->
  ReadRecord a f tbl recNo
  = if (0 <=? o0) && (o1 - o0 <=? Z.max 0 (fsize f - o0))
    then Ret (ReadFile f o0 (o1 - o0)) else Fail.
Proof.
  intros Hr0 Hr1 H0 H1 Hlo Hmono Hhi.
  pose proof (size_bits_ge_32 a) as Hw.
  unfold ReadRecord, GetRecordSize.
  rewrite (rd_lookup tbl recNo o0) by auto. cbn [bind].
  rewrite to_size_small by lia.
  rewrite (rd_lookup tbl (recNo + 1) o1) by (auto; lia). cbn [bind].
  unfold SetFilePointer. rewrite to_i32_to_size, (to_i32_small o0) by lia.
  rewrite to_u32_to_size, to_u32_to_i32, to_u32_small by lia.
  destruct (Z.ltb_spec o0 0); destruct (Z.leb_spec 0 o0); try lia; cbn [bind andb];
    [reflexivity|].
  pose proof (length_ReadFile f o0 (o1 - o0)) as Hlen.
  destruct (Z.leb_spec (o1 - o0) (Z.max 0 (fsize f - o0))).
  - destruct (Z.eqb_spec (Z.of_nat (length (ReadFile f o0 (o1 - o0)))) (o1 - o0));
      [reflexivity | lia].
  - destruct (Z.eqb_spec (Z.of_nat (length (ReadFile f o0 (o1 - o0)))) (o1 - o0));
      [lia | reflexivity].
Qed.

Lemma ReadRecord_bytes (tbl : list Z) recNo buf :
  ReadRecord a f tbl recNo = Ret buf -> Forall is_byte buf.
Proof.
  unfold ReadRecord.
  destruct (rd tbl recNo); try discriminate. cbn [bind].
  destruct (GetRecordSize a tbl recNo); try discriminate. cbn [bind].
  destruct (SetFilePointer _); try discriminate. cbn [bind].
  destruct (negb _); [discriminate|].
  intros H; inversion H; subst. apply ReadFile_bytes.
Qed.

Variable L : PdbLayout.

(** C4.  For an accepted record table and an index below the record count,
    [ReadRecord] reads [offset[index+1] - offset[index]] bytes at
    [offset[index]]: it returns exactly these bytes of the file when that
    many are available there, and fails otherwise. *)
Theorem ReadRecord_envelope isMobi n tbl recNo :
  ParseHeader_pdb a L f = Ret (isMobi, n, tbl) ->
  0 <= recNo < n ->
  let o0 := offset_at tbl recNo in
  let size := offset_at tbl (recNo + 1) - o0 in
  ReadRecord a f tbl recNo
  = (if (0 <=? o0) && (size <=? Z.max 0 (fsize f - o0))
     then Ret (ReadFile f o0 size) else Fail)
  /\ (forall buf, ReadRecord a f tbl recNo = Ret buf ->
        Z.of_nat (length buf) = size
        /\ forall k, 0 <= k < size ->
             buf !! Z.to_nat k = Some (to_u8 (fdata f (o0 + k)))).
Proof.
  intros Hp Hr o0 size.
  apply ParseHeader_pdb_Ret in Hp. destruct Hp as (Hn & Htbl & Hn1 & Hmono).
  rewrite offsets_valid_spec in Hmono.
  assert (Hlen : Z.of_nat (length tbl) = n + 1).
  { rewrite Htbl. unfold stored_recHeaders. rewrite <- Hn.
    apply length_recHeaders_of. lia. }
  assert (Hn15 : n < 2 ^ 15) by (rewrite Hn; apply to_i16_range).
  assert (Hrange : forall i, 0 <= i <= n -> - 2 ^ 31 <= offset_at tbl i < 2 ^ 31).
  { intros i Hi. rewrite Htbl. unfold stored_recHeaders. rewrite <- Hn.
    apply recHeaders_of_range; lia. }
  assert (Heq : ReadRecord a f tbl recNo
                = (if (0 <=? o0) && (size <=? Z.max 0 (fsize f - o0))
                   then Ret (ReadFile f o0 size) else Fail)).
  { apply ReadRecord_in_table.
    - lia.
    - lia.
    - apply offset_at_lookup. lia.
    - apply offset_at_lookup. lia.
    - apply Hrange. lia.
    - apply Hmono. lia.
    - apply Hrange. lia. }
  split; [exact Heq|].
  intros buf Hbuf. rewrite Heq in Hbuf.
  destruct (Z.leb_spec 0 o0); [|discriminate].
  destruct (Z.leb_spec size (Z.max 0 (fsize f - o0))); [|discriminate].
  cbn [andb] in Hbuf. inversion Hbuf; subst buf.
  assert (Hsz : 0 <= size) by (unfold size, o0; specialize (Hmono recNo); lia).
  split.
  - rewrite length_ReadFile. lia.
  - intros k Hk. unfold ReadFile. rewrite list_lookup_fmap.
    rewrite lookup_seqZ_lt by lia. simpl. do 3 f_equal. lia.
Qed.
End RecordFacts.

Lemma be16_add b0 b1 : 0 <= b0 -> is_byte b1 -> be16 b0 b1 = b0 * 256 + b1.
Proof.
  intros H0 H1. unfold be16. rewrite Z.shiftl_mul_pow2 by lia. change (2 ^ 8) with 256.
  symmetry. apply Z.add_nocarry_lor. apply Z.bits_inj'. intros n Hn.
  rewrite Z.land_spec, Z.bits_0.
  destruct (Z.lt_ge_cases n 8).
  - replace (b0 * 256) with (b0 * 2 ^ 8) by reflexivity.
    rewrite Z.mul_pow2_bits_low by lia. reflexivity.
  - destruct (Z.eq_dec b1 0) as [->|Hnz]; [rewrite Z.bits_0; apply andb_false_r|].
    rewrite (Z.bits_above_log2 b1 n); [apply andb_false_r | apply H1 |].
    assert (Z.log2 b1 < 8) by (apply Z.log2_lt_pow2; unfold is_byte in H1; lia). lia.
Qed.

Lemma be16_range b0 b1 : is_byte b0 -> is_byte b1 -> 0 <= be16 b0 b1 < 2 ^ 16.
Proof.
  intros H0 H1. rewrite be16_add by (auto; apply H0).
  unfold is_byte in *. change (2 ^ 16) with 65536. lia.
Qed.

Lemma land_1_testbit x : negb (Z.land x 1 =? 0) = Z.testbit x 0.
Proof.
  rewrite Z.bit0_odd. change 1 with (Z.ones 1). rewrite Z.land_ones by lia.
  change (2 ^ 1) with 2. rewrite Zodd_mod.
  destruct (Z.eqb_spec (x mod 2) 0) as [E|E]; destruct (Z.eqb_spec (x mod 2) 1); simpl; auto; try lia.
  pose proof (Z.mod_pos_bound x 2 eq_refl). lia.
Qed.

Lemma land_2_testbit x : negb (Z.land x 2 =? 0) = Z.testbit x 1.
Proof.
  assert (H : Z.land x 2 = if Z.testbit x 1 then 2 else 0).
  { apply Z.bits_inj'. intros n Hn. rewrite Z.land_spec.
    destruct (Z.eq_dec n 1) as [->|Hne].
    - destruct (Z.testbit x 1); reflexivity.
    - replace (Z.testbit 2 n) with false.
      + rewrite andb_false_r. destruct (Z.testbit x 1); [|symmetry; apply Z.bits_0].
        change 2 with (2 ^ 1). symmetry. apply Z.pow2_bits_false. lia.
      + change 2 with (2 ^ 1). symmetry. apply Z.pow2_bits_false. lia. }
  rewrite H. destruct (Z.testbit x 1); reflexivity.
Qed.

Lemma count_set_bits_shift flags (k : nat) : forall lo, 0 <= lo ->
  count_set_bits (Z.shiftr flags 1) lo k = count_set_bits flags (lo + 1) k.
Proof.
  induction k as [|k IH]; intros lo Hlo; [reflexivity|].
  cbn [count_set_bits]. rewrite Z.shiftr_spec by lia. rewrite IH by lia. reflexivity.
Qed.

Lemma count_set_bits_zero flags (k : nat) : forall lo,
  (forall i, lo <= i -> Z.testbit flags i = false) -> count_set_bits flags lo k = 0.
Proof.
  induction k as [|k IH]; intros lo H; [reflexivity|].
  cbn [count_set_bits]. rewrite H by lia. rewrite IH; [reflexivity|].
  intros i Hi. apply H. lia.
Qed.

Lemma count_set_bits_bound flags (k : nat) : forall lo,
  0 <= count_set_bits flags lo k <= Z.of_nat k.
Proof.
  induction k as [|k IH]; intros lo; cbn [count_set_bits]; [lia|].
  specialize (IH (lo + 1)). destruct (Z.testbit flags lo); lia.
Qed.

(** What the loop over the flags computes: it adds to the count the number
    of set bits at the positions 1 and above. *)
Lemma trailers_loop_count a (fuel : nat) : forall flags cnt,
  (fuel <= 16)%nat -> 0 <= flags < 2 ^ Z.of_nat fuel ->
  0 <= cnt -> cnt + Z.of_nat fuel < 2 ^ 32 ->
  trailers_loop a fuel flags cnt = cnt + count_set_bits flags 1 (pred fuel).
Proof.
  induction fuel as [|fuel IH]; intros flags cnt Hf Hflags Hc Hcf.
  - simpl. lia.
  - cbn [trailers_loop]. destruct (Z.ltb_spec 1 flags) as [Hgt|Hle].
    + destruct fuel as [|fuel].
      { change (2 ^ Z.of_nat 1) with 2 in Hflags. lia. }
      assert (Hs : 0 <= Z.shiftr flags 1 < 2 ^ Z.of_nat (S fuel)).
      { rewrite Z.shiftr_div_pow2 by lia. change (2 ^ 1) with 2.
        rewrite (Nat2Z.inj_succ (S fuel)), Z.pow_succ_r in Hflags by lia.
        split; [apply Z.div_pos; lia | apply Z.div_lt_upper_bound; lia]. }
      assert (Hu : to_u16 (Z.shiftr flags 1) = Z.shiftr flags 1).
      { apply Z.mod_small. split; [lia|].
        eapply Z.lt_le_trans; [apply Hs|]. apply Z.pow_le_mono_r; lia. }
      rewrite Hu. rewrite land_2_testbit.
      pose proof (size_bits_ge_32 a) as Hw.
      rewrite IH; try lia.
      * cbn [pred count_set_bits]. rewrite count_set_bits_shift by lia.
        destruct (Z.testbit flags 1); [rewrite to_size_small by lia|]; simpl; lia.
      * destruct (Z.testbit flags 1); [rewrite to_size_small by lia|]; lia.
      * destruct (Z.testbit flags 1); [rewrite to_size_small by lia|]; lia.
    + rewrite count_set_bits_zero; [lia|].
      intros i Hi. destruct (Z.eq_dec flags 0) as [->|Hnz]; [apply Z.bits_0|].
      apply Z.bits_above_log2; [lia|].
      assert (flags = 1) as -> by lia. simpl. lia.
Qed.

Lemma DecodeExtraDataFlags_spec a flags :
  0 <= flags < 2 ^ 16 ->
  DecodeExtraDataFlags a flags = (Z.testbit flags 0, count_set_bits flags 1 15).
Proof.
  intros H. unfold DecodeExtraDataFlags. rewrite land_1_testbit.
  rewrite trailers_loop_count; auto; lia.
Qed.

Lemma ReadRecord_length a f (tbl : list Z) recNo buf :
  ReadRecord a f tbl recNo = Ret buf -> Z.of_nat (length buf) < 2 ^ 32.
Proof.
  unfold ReadRecord.
  destruct (rd tbl recNo); try discriminate. cbn [bind].
  destruct (GetRecordSize a tbl recNo) as [size| |]; try discriminate. cbn [bind].
  destruct (SetFilePointer _); try discriminate. cbn [bind].
  destruct (Z.eqb_spec (Z.of_nat (length (ReadFile f a1 (to_u32 size)))) (to_u32 size)) as [E|E];
    [|discriminate].
  cbn [negb]. intros H; inversion H; subst. rewrite E.
  apply (Z.mod_pos_bound size (2 ^ 32)). reflexivity.
Qed.

Lemma rd_length (buf : list Z) i v : rd buf i = Ret v -> 0 <= i < Z.of_nat (length buf).
Proof.
  intros H. apply rd_Ret in H. destruct H as [H0 H]. apply lookup_lt_Some in H. lia.
Qed.

Lemma rd_byte (buf : list Z) i v : Forall is_byte buf -> rd buf i = Ret v -> is_byte v.
Proof.
  intros Hb H. apply rd_Ret in H. destruct H as [_ H].
  rewrite Forall_lookup in Hb. eapply Hb, H.
Qed.

Lemma rd_be16_inv (buf : list Z) i v :
  rd_be16 buf i = Ret v ->
  exists b0 b1, rd buf i = Ret b0 /\ rd buf (i + 1) = Ret b1 /\ v = be16 b0 b1.
Proof.
  unfold rd_be16. destruct (rd buf i) as [b0| |]; try discriminate. cbn [bind].
  destruct (rd buf (i + 1)) as [b1| |]; try discriminate. cbn [bind].
  intros H; inversion H; subst. eauto.
Qed.

Lemma rd_be32_length (buf : list Z) i v :
  rd_be32 buf i = Ret v -> 0 <= i /\ i + 3 < Z.of_nat (length buf).
Proof.
  unfold rd_be32. destruct (rd buf i) as [b0| |] eqn:E0; try discriminate. cbn [bind].
  destruct (rd buf (i + 1)) as [b1| |]; try discriminate. cbn [bind].
  destruct (rd buf (i + 2)) as [b2| |]; try discriminate. cbn [bind].
  destruct (rd buf (i + 3)) as [b3| |] eqn:E3; try discriminate. cbn [bind].
  intros _. apply rd_length in E0, E3. lia.
Qed.

Lemma Ret_inj {A} (x y : A) : Ret x = Ret y -> x = y.
Proof. intros H. injection H. auto. Qed.

Section HeaderFacts.
Variables (a : arch) (f : File).

(** What a successful [ParseHeader_doc] has read from record 0. *)
Lemma ParseHeader_doc_Ret mobi n tbl rec0 st :
  ReadRecord a f tbl 0 = Ret rec0 ->
  ParseHeader_doc a f mobi n tbl = Ret st ->
  isMobi st = mobi /\ numRecords st = n /\ recHeaders st = tbl
  /\ doc st = []
  /\ (exists ct us rc,
        rd_be16 rec0 0 = Ret ct /\ rd_be32 rec0 4 = Ret us /\ rd_be16 rec0 8 = Ret rc
        /\ compressionType st = to_i16 ct
        /\ IsValidCompression (to_i16 ct) = true
        /\ docUncompressedSize st = to_size a (to_i32 us)
        /\ docRecCount st = to_size a (to_i16 rc))
  /\ (mobi = true ->
        exists e0 e1, rd rec0 12 = Ret e0 /\ rd rec0 13 = Ret e1
                      /\ to_i16 (be16 e1 e0) = ENCRYPTION_NONE)
  /\ ((Z.of_nat (length rec0) = 16
       /\ multibyte st = false /\ trailersCount st = 0 /\ huffDic st = None)
      \/ (24 <= Z.of_nat (length rec0)
          /\ exists hdrLen first cnt,
               rd_be32 rec0 20 = Ret hdrLen
               /\ rd_be32 rec0 112 = Ret first
               /\ rd_be32 rec0 116 = Ret cnt
               /\ hdrLen <= Z.of_nat (length rec0) - 16
               /\ (if 228 <=? hdrLen
                   then exists flags, rd_be16 rec0 242 = Ret flags
                          /\ (multibyte st, trailersCount st) = DecodeExtraDataFlags a flags
                   else multibyte st = false /\ trailersCount st = 0)
               /\ (if compressionType st =? COMPRESSION_HUFF
                   then exists recData hd hd',
                          ReadRecord a f tbl first = Ret recData
                          /\ SetHuffData new_HuffDicDecompressor recData
                               (Z.of_nat (length recData)) = Ret hd
                          /\ AddCdic_loop a f tbl first (Z.to_nat (cnt - 1)) 1 hd = Ret hd'
                          /\ huffDic st = Some hd'
                   else huffDic st = None))).
Proof.
  intros Hrec H. pose proof (ReadRecord_length _ _ _ _ _ Hrec) as Hlen32.
  pose proof (size_bits_ge_32 a) as Hw.
  unfold ParseHeader_doc in H. rewrite Hrec in H. cbn [bind] in H. cbv zeta in H.
  destruct (rd_be16 rec0 0) as [ct| |] eqn:Ect; try discriminate. cbn [bind] in H.
  destruct (rd_be32 rec0 4) as [us| |] eqn:Eus; try discriminate. cbn [bind] in H.
  destruct (rd_be16 rec0 8) as [rc| |] eqn:Erc; try discriminate. cbn [bind] in H.
  destruct (IsValidCompression (to_i16 ct)) eqn:Evalid; [|discriminate]. cbn [negb] in H.
  assert (Henc : mobi = true ->
            exists e0 e1, rd rec0 12 = Ret e0 /\ rd rec0 13 = Ret e1
                          /\ to_i16 (be16 e1 e0) = ENCRYPTION_NONE).
  { intros ->. destruct (rd rec0 12) as [e0| |]; try discriminate. cbn [bind] in H.
    destruct (rd rec0 13) as [e1| |]; try discriminate. cbn [bind] in H.
    destruct (Z.eqb_spec (to_i16 (be16 e1 e0)) ENCRYPTION_NONE); [eauto | discriminate]. }
  match type of H with bind ?m _ = _ => destruct m as [[]| |]; try discriminate end.
  cbn [bind] in H.
  destruct (Z.eqb_spec (to_size a (Z.of_nat (length rec0) - kPalmDocHeaderLen)) 0) as [E0|E0].
  { inversion H; subst st;
    cbn [isMobi numRecords recHeaders doc compressionType docUncompressedSize
           docRecCount multibyte trailersCount huffDic].
    repeat (split; [reflexivity|]). split; [eauto 10|]. split; [exact Henc|].
    left. repeat split; auto.
    unfold to_size, to_unsigned, kPalmDocHeaderLen in E0.
    apply Z.mod_divide in E0; [|lia]. destruct E0 as [q Hq].
    assert (Hl : -16 <= Z.of_nat (length rec0) - 16 < 2 ^ size_bits a) by lia.
    rewrite Hq in Hl.
    assert (q = 0) as ->; [|lia].
    destruct (Z.lt_trichotomy q 0) as [Hq0|[Hq0|Hq0]]; [exfalso|exact Hq0|exfalso].
    - assert (q * 2 ^ size_bits a <= -1 * 2 ^ size_bits a)
        by (apply Z.mul_le_mono_nonneg_r; lia). lia.
    - assert (1 * 2 ^ size_bits a <= q * 2 ^ size_bits a)
        by (apply Z.mul_le_mono_nonneg_r; lia). lia. }
  destruct (Z.ltb_spec (to_size a (Z.of_nat (length rec0) - kPalmDocHeaderLen)) 8) as [E8|E8];
    [discriminate|].
  unfold kPalmDocHeaderLen in *.
  destruct (rd rec0 16) as [id0| |]; try discriminate. cbn [bind] in H.
  destruct (rd rec0 (16 + 1)) as [id1| |]; try discriminate. cbn [bind] in H.
  destruct (rd rec0 (16 + 2)) as [id2| |]; try discriminate. cbn [bind] in H.
  destruct (rd rec0 (16 + 3)) as [id3| |]; try discriminate. cbn [bind] in H.
  destruct (negb (EqN MOBI_ID _ 4)); [discriminate|].
  unfold mobiHdr_hdrLen, mobiHdr_huffmanFirstRec, mobiHdr_huffmanRecCount,
    mobiHdr_extraDataFlags in H.
  change (16 + 4) with 20 in H. change (16 + 96) with 112 in H.
  change (16 + 100) with 116 in H. change (16 + 226) with 242 in H.
  destruct (rd_be32 rec0 20) as [hdrLen| |] eqn:Ehl; try discriminate. cbn [bind] in H.
  destruct (swap_fields rec0 _) as [[]| |]; try discriminate. cbn [bind] in H.
  destruct (rd_be32 rec0 112) as [first| |] eqn:Efirst; try discriminate. cbn [bind] in H.
  destruct (rd_be32 rec0 116) as [cnt| |] eqn:Ecnt; try discriminate. cbn [bind] in H.
  destruct (swap_fields rec0 _) as [[]| |]; try discriminate. cbn [bind] in H.
  pose proof (rd_be32_length _ _ _ Ehl) as Hl20.
  rewrite to_size_small in H, E0, E8 by lia.
  destruct (Z.ltb_spec (Z.of_nat (length rec0) - 16) hdrLen) as [Ehdr|Ehdr]; [discriminate|].
  match type of H with
  | bind ?m _ = _ => destruct m as [[mb tc]| |] eqn:Eflags; try discriminate
  end.
  cbn [bind] in H.
  match type of H with
  | bind ?m _ = _ => destruct m as [hd| |] eqn:Ehuff; try discriminate
  end.
  cbn [bind] in H. inversion H; subst st;
    cbn [isMobi numRecords recHeaders doc compressionType docUncompressedSize
           docRecCount multibyte trailersCount huffDic].
  repeat (split; [reflexivity|]). split; [eauto 10|]. split; [exact Henc|].
  right. split; [lia|]. exists hdrLen, first, cnt.
  repeat (split; [first [reflexivity | lia]|]). split.
  - destruct (228 <=? hdrLen).
    + destruct (rd_be16 rec0 242) as [flags| |]; try discriminate. cbn [bind] in Eflags.
      exists flags. split; [reflexivity|]. symmetry. apply Ret_inj, Eflags.
    + apply Ret_inj in Eflags. injection Eflags as <- <-. auto.
  - destruct (to_i16 ct =? COMPRESSION_HUFF).
    + destruct (ReadRecord a f tbl first) as [recData| |] eqn:Er; try discriminate.
      cbn [bind] in Ehuff.
      destruct (SetHuffData _ _ _) as [hd0| |] eqn:Es; try discriminate.
      cbn [bind] in Ehuff.
      destruct (AddCdic_loop _ _ _ _ _ _ _) as [hd1| |] eqn:Ea; try discriminate.
      cbn [bind] in Ehuff. apply Ret_inj in Ehuff. subst hd.
      exists recData, hd0, hd1. auto.
    + apply Ret_inj in Ehuff. subst hd. reflexivity.
Qed.
End HeaderFacts.

Lemma bind_Ret {A B} (m : outcome A) (k : A -> outcome B) b :
  bind m k = Ret b -> exists x, m = Ret x /\ k x = Ret b.
Proof. destruct m; cbn; try discriminate. eauto. Qed.

Lemma succeeds_false {A} (m : outcome A) :
  succeeds m = false <-> m = Fail \/ m = Undef.
Proof.
  destruct m; cbn; split; auto; try discriminate.
  intros [H|H]; discriminate.
Qed.

Lemma to_i16_zero x : 0 <= x < 2 ^ 16 -> to_i16 x = 0 -> x = 0.
Proof.
  unfold to_i16, to_signed. change (16 - 1) with 15.
  change (2 ^ 16) with 65536. change (2 ^ 15) with 32768.
  intros Hx H. Z.div_mod_to_equations. lia.
Qed.

Section FileFacts.
Variables (a : arch) (L : PdbLayout) (f : File).

Lemma ParseHeader_Ret st :
  ParseHeader a L f = Ret st ->
  exists mobi n tbl rec0,
    ParseHeader_pdb a L f = Ret (mobi, n, tbl)
    /\ ReadRecord a f tbl 0 = Ret rec0
    /\ ParseHeader_doc a f mobi n tbl = Ret st.
Proof.
  unfold ParseHeader. intros H. apply bind_Ret in H.
  destruct H as ([[mobi n] tbl] & Hp & Hd).
  exists mobi, n, tbl.
  assert (exists rec0, ReadRecord a f tbl 0 = Ret rec0) as [rec0 Hr].
  { unfold ParseHeader_doc in Hd. apply bind_Ret in Hd. destruct Hd as (r & Hr & _). eauto. }
  eauto.
Qed.

(** C8.  After a successful [ParseHeader] on a file: the record table of
    the result is the table stored in the file, record 0 of that table can
    be read, and the trailing-data shape is decided by this record alone.
    When record 0 has no extended header (it is 16 bytes long), or the
    extended header declares a length below 228, [multibyte] is false and
    [trailersCount] is 0; when the declared length is at least 228,
    [multibyte] is bit 0 of the extra data flags and [trailersCount] is the
    number of set bits at the positions 1 to 15. *)
Theorem ParseHeader_trailing_shape st :
  ParseHeader a L f = Ret st ->
  recHeaders st = stored_recHeaders a L f
  /\ exists rec0,
       ReadRecord a f (stored_recHeaders a L f) 0 = Ret rec0
       /\ (Z.of_nat (length rec0) = 16 -> multibyte st = false /\ trailersCount st = 0)
       /\ (Z.of_nat (length rec0) <> 16 ->
           exists hdrLen,
             rd_be32 rec0 20 = Ret hdrLen
             /\ (hdrLen < 228 -> multibyte st = false /\ trailersCount st = 0)
             /\ (228 <= hdrLen ->
                 exists flags,
                   rd_be16 rec0 242 = Ret flags
                   /\ multibyte st = Z.testbit flags 0
                   /\ trailersCount st = count_set_bits flags 1 15)).
Proof.
  intros H. apply ParseHeader_Ret in H. destruct H as (mobi & n & tbl & rec0 & Hp & Hr & Hd).
  pose proof (ReadRecord_bytes _ _ _ _ _ Hr) as Hbytes.
  destruct (ParseHeader_doc_Ret a f mobi n tbl rec0 st Hr Hd)
    as (_ & _ & Htbl & _ & _ & _ & Hshape).
  apply ParseHeader_pdb_Ret in Hp. destruct Hp as (_ & Hstored & _ & _).
  rewrite Htbl. subst tbl. split; [reflexivity|].
  exists rec0. split; [exact Hr|].
  destruct Hshape as [(Hlen & Hm & Ht & _) | (Hlen & hdrLen & first & cnt & Hh & _ & _ & _ & Hfl & _)].
  - split; [auto | intros Hne; contradiction].
  - split; [intros Heq; lia|]. intros _. exists hdrLen. split; [exact Hh|].
    destruct (Z.leb_spec 228 hdrLen) as [Hge|Hlt].
    + split; [intros; lia|]. intros _.
      destruct Hfl as (flags & Hflags & Hdec). exists flags. split; [exact Hflags|].
      apply rd_be16_inv in Hflags. destruct Hflags as (b0 & b1 & H0 & H1 & ->).
      rewrite DecodeExtraDataFlags_spec in Hdec
        by (apply be16_range; eapply rd_byte; eauto).
      injection Hdec as -> ->. auto.
    + split; [intros _; exact Hfl | intros; lia].
Qed.

(** C9.  For a MOBI file whose PalmDoc header carries an encryption type
    other than 0 in the bytes 12 and 13 of record 0, [ParseHeader] fails,
    whatever the compression type and the records are, and so does
    [ParseFile]: no document is returned. *)
Theorem ParseHeader_encrypted stack_buf n tbl rec0 e0 e1 :
  ParseHeader_pdb a L f = Ret (true, n, tbl) ->
  ReadRecord a f tbl 0 = Ret rec0 ->
  rd rec0 12 = Ret e0 -> rd rec0 13 = Ret e1 ->
  be16 e0 e1 <> ENCRYPTION_NONE ->
  ParseHeader a L f = Fail /\ ParseFile a L stack_buf f = Fail.
Proof.
  intros Hp Hr H12 H13 Hne.
  assert (Hfail : ParseHeader a L f = Fail).
  { pose proof (ReadRecord_bytes _ _ _ _ _ Hr) as Hbytes.
    pose proof (rd_byte _ _ _ Hbytes H12) as Hb0.
    pose proof (rd_byte _ _ _ Hbytes H13) as Hb1.
    pose proof (rd_length _ _ _ H13) as Hlen.
    unfold ParseHeader. rewrite Hp. cbn [bind].
    unfold ParseHeader_doc. rewrite Hr. cbn [bind]. cbv zeta.
    unfold rd_be16, rd_be32.
    repeat match goal with
           | |- context [rd rec0 ?i] =>
               lazymatch i with
               | 12 => fail | 13 => fail
               | _ => let v := fresh "v" in let E := fresh "E" in
                      destruct (rd_in_range rec0 i) as [v E]; [lia|]; rewrite E; cbn [bind]
               end
           end.
    destruct (negb (IsValidCompression _)); [reflexivity|].
    rewrite H12, H13. cbn [bind].
    destruct (Z.eqb_spec (to_i16 (be16 e1 e0)) ENCRYPTION_NONE) as [Hz|Hz]; [|reflexivity].
    exfalso. apply Hne. unfold ENCRYPTION_NONE in *.
    apply to_i16_zero in Hz; [|apply be16_range; auto].
    rewrite be16_add in Hz by (auto; apply Hb1).
    rewrite be16_add by (auto; apply Hb0).
    unfold is_byte in *. lia. }
  split; [exact Hfail|]. unfold ParseFile. rewrite Hfail. reflexivity.
Qed.
End FileFacts.

Lemma AddCdic_loop_fails a f tbl first (k : nat) i hd :
  succeeds (AddCdic_loop a f tbl first (S k) i hd) = false.
Proof.
  cbn [AddCdic_loop]. destruct (ReadRecord a f tbl _); reflexivity.
Qed.

Section HuffFacts.
Variables (a : arch) (f : File) (stack_buf : list Z).

Lemma LoadDocRecordIntoBuffer_huff this recNo strOut :
  compressionType this = COMPRESSION_HUFF ->
  succeeds (LoadDocRecordIntoBuffer a f stack_buf this recNo strOut) = false.
Proof.
  intros Hc. unfold LoadDocRecordIntoBuffer. rewrite Hc.
  destruct (ReadRecord a f (recHeaders this) recNo) as [recData| |]; try reflexivity.
  cbn [bind]. destruct (ExtraDataSize a recData _ _ _); reflexivity.
Qed.

Lemma LoadDocument_huff this :
  compressionType this = COMPRESSION_HUFF -> 1 <= docRecCount this ->
  succeeds (LoadDocument a f stack_buf this) = false.
Proof.
  intros Hc Hn. unfold LoadDocument.
  destruct (Z.to_nat (docRecCount this)) as [|k] eqn:E; [lia|].
  cbn [LoadDocument_loop].
  pose proof (LoadDocRecordIntoBuffer_huff this 1 (doc this) Hc) as H.
  destruct (LoadDocRecordIntoBuffer a f stack_buf this 1 (doc this)); [discriminate| |]; reflexivity.
Qed.

Variable L : PdbLayout.

(** C10.  Huffman-compressed documents are never decoded.  [ParseHeader]
    does not succeed when the compression is HUFF and the extended header
    declares more than one Huffman record; [LoadDocRecordIntoBuffer] does
    not succeed on any record when the compression is HUFF; and [ParseFile]
    does not succeed on a file whose header was accepted with HUFF
    compression and at least one text record. *)
Theorem huffman_never_decoded :
  (forall mobi n tbl rec0 ct cnt,
      ParseHeader_pdb a L f = Ret (mobi, n, tbl) ->
      ReadRecord a f tbl 0 = Ret rec0 ->
      rd_be16 rec0 0 = Ret ct -> to_i16 ct = COMPRESSION_HUFF ->
      Z.of_nat (length rec0) <> 16 ->
      rd_be32 rec0 116 = Ret cnt -> 1 < cnt ->
      succeeds (ParseHeader a L f) = false)
  /\ (forall this recNo strOut,
        compressionType this = COMPRESSION_HUFF ->
        succeeds (LoadDocRecordIntoBuffer a f stack_buf this recNo strOut) = false)
  /\ (forall st,
        ParseHeader a L f = Ret st ->
        compressionType st = COMPRESSION_HUFF -> 1 <= docRecCount st ->
        succeeds (ParseFile a L stack_buf f) = false).
Proof.
  split; [|split].
  - intros mobi n tbl rec0 ct cnt Hp Hr Hct Hhuff Hlen Hcnt Hgt.
    destruct (ParseHeader a L f) as [st| |] eqn:E; try reflexivity. exfalso.
    unfold ParseHeader in E. rewrite Hp in E. cbn [bind] in E.
    destruct (ParseHeader_doc_Ret a f mobi n tbl rec0 st Hr E)
      as (_ & _ & _ & _ & (ct' & us & rc & Hct' & _ & _ & Hcomp & _) & _ & Hshape).
    rewrite Hct in Hct'. apply Ret_inj in Hct'. subst ct'.
    destruct Hshape as [(Hl & _) | (_ & hdrLen & first & cnt' & _ & _ & Hcnt' & _ & _ & Hh)];
      [contradiction|].
    rewrite Hcnt in Hcnt'. apply Ret_inj in Hcnt'. subst cnt'.
    rewrite Hcomp, Hhuff in Hh. cbn in Hh.
    destruct Hh as (recData & hd & hd' & _ & _ & Hloop & _).
    destruct (Z.to_nat (cnt - 1)) as [|k] eqn:Ek; [lia|].
    pose proof (AddCdic_loop_fails a f tbl first k 1 hd) as Hf.
    rewrite Hloop in Hf. discriminate.
  - apply LoadDocRecordIntoBuffer_huff.
  - intros st Hst Hc Hn. unfold ParseFile. rewrite Hst. cbn [bind].
    apply LoadDocument_huff; assumption.
Qed.
End HuffFacts.

(** C2.  [LoadDocument] does not compare the size of the document with the
    declared size: a file that declares 5 bytes and whose only text record
    holds 4 is loaded, and the 4 bytes are returned. *)
Theorem LoadDocument_ignores_declared_size (a : arch) :
  exists st,
    ParseFile a palm_layout zero_buf file_short = Ret st
    /\ docUncompressedSize st = 5
    /\ doc st = [97; 98; 99; 100].
Proof. destruct a; eexists; (split; [vm_compute; reflexivity | split; reflexivity]). Qed.

(** C5.  [ExtraDataSize] does not test the lengths it subtracts.  A record
    of 4 bytes whose trailer declares 9 bytes yields a trailing size of 9; a
    record of 1 byte whose multibyte trailer declares 2 bytes yields 2; and
    loading the first of them does not fail, it reads outside the record. *)
Theorem ExtraDataSize_exceeds_record (a : arch) :
  ExtraDataSize a [0; 0; 0; 9] 4 1 false = Ret 9
  /\ ExtraDataSize a [5] 1 0 true = Ret 2
  /\ ParseFile a palm_layout zero_buf (file_flags 2 [0; 0; 0; 9]) = Undef.
Proof. destruct a; (split; [|split]); vm_compute; reflexivity. Qed.

(** C7.  [SetHuffData] drops the result of [UnpackCacheData]: on a HUFF
    record with a well-formed header and a cache whose first entry is zero
    (code length 0), [UnpackCacheData] returns false and [SetHuffData]
    succeeds. *)
Theorem SetHuffData_drops_cache_error :
  succeeds (SetHuffData new_HuffDicDecompressor huff_zero_cache
              (Z.of_nat (length huff_zero_cache))) = true
  /\ rd_be32 huff_zero_cache 24 = Ret 0
  /\ exists d, UnpackCacheData huff_zero_cache 24 (dict1 new_HuffDicDecompressor)
               = Ret (false, d).
Proof. split; [|split]; [vm_compute; reflexivity ..|]. eexists. vm_compute. reflexivity. Qed.

(** C4, counterexample.  With a table of 2 records, [ReadRecord] at index 2
    does not fail: it reads the table entry 3, outside the table. *)
Lemma ReadRecord_index_not_checked :
  ParseHeader_pdb Win32 palm_layout file_plain = Ret (false, 2, [94; 110; 114])
  /\ ReadRecord Win32 file_plain [94; 110; 114] 2 = Undef.
Proof. split; vm_compute; reflexivity. Qed.

(** C6, counterexample.  A file of 4 GiB + 102 bytes is accepted in the
    64-bit build with 102 as its last table entry. *)
Lemma sentinel_differs_from_file_size :
  exists st,
    ParseHeader Win64 palm_layout file_4g = Ret st
    /\ offset_at (recHeaders st) (numRecords st) = 102
    /\ fsize file_4g = 4294967398.
Proof. eexists. split; [vm_compute; reflexivity | split; reflexivity]. Qed.

(** ** Instances *)

Lemma PalmdocUncompress_step_backref_witness :
  exists dst',
    PalmdocUncompress_step Win32 [97; 98; 128; 17] 4 6 [97; 98; 0; 0; 0; 0] 2 2
    = Ret (4, 6, dst')
    /\ dst' !! 5%nat = Some 98.
Proof.
  destruct (PalmdocUncompress_step_backref Win32 [97; 98; 128; 17] 4 6
              [97; 98; 0; 0; 0; 0] 2 2 128 17) as (dst' & H & _ & _ & _ & Hpat);
    [discriminate | reflexivity | lia | lia | reflexivity | vm_compute; discriminate | vm_compute; discriminate |].
  exists dst'. split; [exact H|].
  apply (Hpat ltac:(vm_compute; discriminate) 3). vm_compute. split; [discriminate | reflexivity].
Defined.

Lemma ReadRecord_envelope_witness :
  ReadRecord Win32 file_plain [94; 110; 114] 1 = Ret (ReadFile file_plain 110 4).
Proof.
  apply (proj1 (ReadRecord_envelope Win32 file_plain palm_layout false 2 [94; 110; 114] 1
                  ltac:(vm_compute; reflexivity) ltac:(lia))).
Defined.

Lemma ParseHeader_pdb_envelope_witness :
  offset_at [94; 110; 114] 2 = fsize file_plain.
Proof.
  destruct (proj1 (ParseHeader_pdb_envelope Win32 palm_layout file_plain) false 2 [94; 110; 114]
              ltac:(vm_compute; reflexivity)) as (_ & _ & _ & H & _).
  apply H. vm_compute. split; [discriminate | reflexivity].
Defined.

Lemma ParseHeader_trailing_shape_witness :
  exists st, ParseHeader Win32 palm_layout (file_flags 7 []) = Ret st
             /\ multibyte st = true /\ trailersCount st = 2.
Proof.
  destruct (ParseHeader Win32 palm_layout (file_flags 7 [])) as [st| |] eqn:E;
    [| vm_compute in E; discriminate | vm_compute in E; discriminate].
  exists st. split; [reflexivity|].
  destruct (ParseHeader_trailing_shape Win32 palm_layout (file_flags 7 []) st E)
    as (_ & rec0 & Hr & _ & Hext).
  assert (Hrec : ReadRecord Win32 (file_flags 7 [])
                   (stored_recHeaders Win32 palm_layout (file_flags 7 [])) 0
                 = Ret (palmdoc_header 1 4 1 [0; 0; 0; 0] ++ mobi_header 232 0 0 7))
    by (vm_compute; reflexivity).
  rewrite Hrec in Hr. apply Ret_inj in Hr. subst rec0.
  destruct (Hext ltac:(vm_compute; discriminate)) as (hdrLen & Hh & _ & Hflags).
  assert (Hlen : rd_be32 (palmdoc_header 1 4 1 [0; 0; 0; 0] ++ mobi_header 232 0 0 7) 20
                 = Ret 232) by (vm_compute; reflexivity).
  rewrite Hlen in Hh. apply Ret_inj in Hh. subst hdrLen.
  destruct (Hflags ltac:(lia)) as (flags & Hf & Hm & Ht).
  assert (Hfl : rd_be16 (palmdoc_header 1 4 1 [0; 0; 0; 0] ++ mobi_header 232 0 0 7) 242
                = Ret 7) by (vm_compute; reflexivity).
  rewrite Hfl in Hf. apply Ret_inj in Hf. subst flags.
  split; [exact Hm | exact Ht].
Defined.

Lemma ParseHeader_encrypted_witness :
  ParseHeader Win32 palm_layout file_encrypted = Fail
  /\ ParseFile Win32 palm_layout [] file_encrypted = Fail.
Proof.
  eapply (ParseHeader_encrypted Win32 palm_layout file_encrypted [] 2 [94; 342; 346]).
  - vm_compute. reflexivity.
  - vm_compute. reflexivity.
  - vm_compute. reflexivity.
  - vm_compute. reflexivity.
  - vm_compute. discriminate.
Defined.

Lemma huffman_never_decoded_witness :
  succeeds (ParseHeader Win32 palm_layout (file_huff 2)) = false
  /\ succeeds (ParseFile Win32 palm_layout [] (file_huff 1)) = false.
Proof.
  split.
  - eapply (proj1 (huffman_never_decoded Win32 (file_huff 2) [] palm_layout)).
    + vm_compute. reflexivity.
    + vm_compute. reflexivity.
    + vm_compute. reflexivity.
    + vm_compute. reflexivity.
    + vm_compute. discriminate.
    + vm_compute. reflexivity.
    + vm_compute. reflexivity.
  - eapply (proj2 (proj2 (huffman_never_decoded Win32 (file_huff 1) [] palm_layout))).
    + vm_compute. reflexivity.
    + vm_compute. reflexivity.
    + vm_compute. discriminate.
Defined.

(** * Further properties of the code *)

Lemma copy_raw_run (c : nat) : forall (src : list Z) s (dst : list Z) d,
  0 <= s -> s + Z.of_nat c <= Z.of_nat (length src) ->
  0 <= d -> d + Z.of_nat c <= Z.of_nat (length dst) ->
  exists dst',
    copy_raw c src s dst d = Ret (s + Z.of_nat c, d + Z.of_nat c, dst')
    /\ length dst' = length dst
    /\ (forall j, 0 <= j -> j < d \/ d + Z.of_nat c <= j ->
          dst' !! Z.to_nat j = dst !! Z.to_nat j)
    /\ (forall i, 0 <= i < Z.of_nat c ->
          dst' !! Z.to_nat (d + i) = src !! Z.to_nat (s + i)).
Proof.
  induction c as [|c IH]; intros src s dst d Hs Hsrc Hd Hdst.
  - exists dst. cbn [copy_raw]. rewrite !Z.add_0_r.
    repeat split; auto. intros; lia.
  - destruct (rd_in_range src s) as [v Hv]; [lia|].
    cbn [copy_raw]. rewrite Hv. cbn [bind]. rewrite wr_in_range by lia. cbn [bind].
    destruct (IH src (s + 1) (<[Z.to_nat d := v]> dst) (d + 1))
      as (dst' & Hrun & Hl & Hout & Hcopy); [lia | lia | lia | rewrite length_insert; lia |].
    exists dst'. rewrite Hrun.
    split; [do 3 f_equal; lia|]. split; [rewrite Hl; apply length_insert|].
    split.
    + intros j Hj0 Hj. rewrite Hout by lia. apply list_lookup_insert_ne. lia.
    + intros i Hi. destruct (Z.eq_dec i 0) as [->|Hne].
      * rewrite !Z.add_0_r, Hout by lia.
        rewrite list_lookup_insert_eq by lia. apply rd_Ret in Hv. symmetry. apply Hv.
      * specialize (Hcopy (i - 1) ltac:(lia)).
        replace (d + 1 + (i - 1)) with (d + i) in Hcopy by lia.
        replace (s + 1 + (i - 1)) with (s + i) in Hcopy by lia. exact Hcopy.
Qed.

Section Turns.
Variables (a : arch) (src : list Z) (srcLen dstLen : Z).

(** X3.  A turn whose leading byte [c] is between 1 and 8, with [c] bytes
    of room below the declared bound: the next [c] bytes of the input are
    copied as they are to the output, nothing else in the buffer changes,
    and the turn consumes [c + 1] input bytes.  The code does not compare
    the run with [srcEnd]: the bytes are taken from the object [src] points
    into, also past the declared [srcLen]. *)
Theorem PalmdocUncompress_step_raw_run dst s d c :
  rd src s = Ret c -> 1 <= c <= 8 ->
  s + 1 + c <= Z.of_nat (length src) ->
  0 <= d -> d + c <= dstLen -> dstLen <= Z.of_nat (length dst) ->
  dstLen < 2 ^ size_bits a ->
  exists dst',
    PalmdocUncompress_step a src srcLen dstLen dst s d = Ret (s + 1 + c, d + c, dst')
    /\ length dst' = length dst
    /\ (forall j, 0 <= j -> j < d \/ d + c <= j -> dst' !! Z.to_nat j = dst !! Z.to_nat j)
    /\ (forall i, 0 <= i < c -> dst' !! Z.to_nat (d + i) = src !! Z.to_nat (s + 1 + i)).
Proof.
  intros Hc Hrange Hsrc Hd Hfit Hlen Hw.
  pose proof (rd_length _ _ _ Hc) as Hs.
  destruct (copy_raw_run (Z.to_nat c) src (s + 1) dst d) as (dst' & Hrun & Hl & Hout & Hcopy);
    try lia.
  rewrite Z2Nat.id in Hrun, Hout, Hcopy by lia.
  exists dst'. split; [|auto].
  unfold PalmdocUncompress_step. rewrite to_size_small by lia.
  destruct (Z.eqb_spec (dstLen - d) 0); [lia|].
  rewrite Hc. cbn [bind].
  destruct (Z.leb_spec 1 c); [|lia]. destruct (Z.leb_spec c 8); [|lia]. cbn [andb].
  destruct (Z.ltb_spec (dstLen - d) c); [lia|]. exact Hrun.
Qed.

(** X4.  A turn whose leading byte [c] is at least 192, with two bytes of
    room below the declared bound: a space and the byte [c - 128] (which is
    [c ^ 0x80]) are written, and one input byte is consumed. *)
Theorem PalmdocUncompress_step_space_pair dst s d c :
  rd src s = Ret c -> 192 <= c < 256 ->
  0 <= d -> d + 2 <= dstLen -> dstLen <= Z.of_nat (length dst) ->
  dstLen < 2 ^ size_bits a ->
  PalmdocUncompress_step a src srcLen dstLen dst s d
  = Ret (s + 1, d + 2, <[Z.to_nat (d + 1) := c - 128]> (<[Z.to_nat d := 32]> dst)).
Proof.
  intros Hc Hrange Hd Hfit Hlen Hw.
  unfold PalmdocUncompress_step. rewrite to_size_small by lia.
  destruct (Z.eqb_spec (dstLen - d) 0) as [Hz|Hz]; [lia|].
  rewrite Hc. cbn [bind].
  replace ((1 <=? c) && (c <=? 8)) with false
    by (symmetry; apply andb_false_iff; right; apply Z.leb_gt; lia).
  destruct (Z.ltb_spec c 128); [lia|]. destruct (Z.leb_spec 192 c); [|lia].
  destruct (Z.ltb_spec (dstLen - d) 2); [lia|].
  rewrite wr_in_range by lia. cbn [bind].
  rewrite wr_in_range by (rewrite length_insert; lia). cbn [bind].
  assert (Hx : to_u8 (Z.lxor c 128) = c - 128).
  { assert (Hc' : c = 128 + (c - 128)) by lia.
    assert (Hland : Z.land (c - 128) 128 = 0).
    { apply Z.bits_inj'. intros k Hk. rewrite Z.land_spec, Z.bits_0.
      destruct (Z.eq_dec k 7) as [->|Hn7].
      - replace (Z.testbit (c - 128) 7) with false; [reflexivity|].
        symmetry. apply Z.testbit_false; [lia|].
        change (2 ^ 7) with 128. rewrite Z.div_small by lia. reflexivity.
      - change 128 with (2 ^ 7). rewrite Z.pow2_bits_false by lia. apply andb_false_r. }
    rewrite Hc' at 1. rewrite (Z.add_comm 128).
    rewrite (Z.add_nocarry_lxor (c - 128) 128 Hland).
    rewrite Z.lxor_assoc, Z.lxor_nilpotent, Z.lxor_0_r.
    apply Z.mod_small. change (2 ^ 8) with 256. lia. }
  rewrite Hx. reflexivity.
Qed.

(** Without back-reference opcodes the loop stays below the declared bound. *)
Lemma PalmdocUncompress_loop_bounded (fuel : nat) : forall dst s d n dst',
  Forall (fun c => ~ (128 <= c < 192)) src ->
  0 <= d <= dstLen -> dstLen < 2 ^ size_bits a ->
  PalmdocUncompress_loop a src srcLen dstLen fuel dst s d = Ret (n, dst') ->
  0 <= n <= dstLen /\ length dst' = length dst.
Proof.
  assert (Hfin : forall dst d n dst',
            0 <= d <= dstLen -> dstLen < 2 ^ size_bits a ->
            PalmdocUncompress_finish a dstLen dst d = Ret (n, dst') ->
            0 <= n <= dstLen /\ length dst' = length dst).
  { intros dst d n dst' Hd Hw. unfold PalmdocUncompress_finish.
    rewrite to_size_small by lia.
    destruct (d <? dstLen).
    - unfold wr. destruct ((0 <=? d) && (d <? Z.of_nat (length dst))); [|discriminate].
      cbn [bind]. intros H; inversion H; subst. rewrite length_insert. lia.
    - intros H; inversion H; subst. lia. }
  induction fuel as [|fuel IH]; intros dst s d n dst' Hsrc Hd Hw; cbn [PalmdocUncompress_loop].
  - apply Hfin; assumption.
  - destruct (s <? srcLen); [|apply Hfin; assumption].
    destruct (PalmdocUncompress_step a src srcLen dstLen dst s d)
      as [[[s1 d1] dst1]| |] eqn:E; cbn [bind]; try discriminate.
    intros Hrun.
    assert (Hc : exists c, rd src s = Ret c).
    { unfold PalmdocUncompress_step in E.
      destruct (to_size a (dstLen - d) =? 0); [discriminate|].
      destruct (rd src s) as [c| |]; try discriminate. eauto. }
    destruct Hc as [c Hc].
    assert (Hnb : ~ (128 <= c < 192)).
    { apply rd_Ret in Hc. destruct Hc as [_ Hc].
      rewrite Forall_lookup in Hsrc. eapply Hsrc, Hc. }
    pose proof (PalmdocUncompress_step_checked a src srcLen dstLen dst s d c s1 d1 dst1
                  Hd Hw Hc Hnb E) as Hd1.
    pose proof (PalmdocUncompress_step_advances a src srcLen dstLen dst s d s1 d1 dst1 E)
      as [_ Hl1].
    assert (Hd1' : d <= d1).
    { clear - E Hc Hnb. unfold PalmdocUncompress_step in E.
      destruct (to_size a (dstLen - d) =? 0); [discriminate|].
      rewrite Hc in E. cbn [bind] in E.
      destruct ((1 <=? c) && (c <=? 8)).
      { destruct (to_size a (dstLen - d) <? c); [discriminate|].
        apply copy_raw_spec in E. lia. }
      destruct (Z.ltb_spec c 128).
      { destruct (wr dst d c); try discriminate. cbn [bind] in E. inversion E. lia. }
      destruct (Z.leb_spec 192 c).
      { destruct (to_size a (dstLen - d) <? 2); [discriminate|].
        destruct (wr dst d 32); try discriminate. cbn [bind] in E.
        destruct (wr _ _ _); try discriminate. cbn [bind] in E. inversion E. lia. }
      lia. }
    destruct (IH dst1 s1 d1 n dst' Hsrc ltac:(lia) Hw Hrun) as [Hn Hl].
    split; [exact Hn | congruence].
Qed.

(** X2.  On an input that holds no byte from 128 to 191 (so no
    back-reference is decoded), whenever [PalmdocUncompress] returns a size
    it is at most the declared bound [dstLen], and the buffer keeps its
    length. *)
Theorem PalmdocUncompress_no_backref_bounded dst n dst' :
  Forall (fun c => ~ (128 <= c < 192)) src ->
  0 <= dstLen < 2 ^ size_bits a ->
  PalmdocUncompress a src srcLen dstLen dst = Ret (n, dst') ->
  0 <= n <= dstLen /\ length dst' = length dst.
Proof.
  intros Hsrc Hw. unfold PalmdocUncompress.
  apply PalmdocUncompress_loop_bounded; [exact Hsrc | lia | lia].
Qed.

(** X1.  Every turn of the decoding loop that returns consumes at least one
    input byte and keeps the length of the buffer; so the loop ends within
    [srcLen] turns: any larger number of turns gives the result of
    [PalmdocUncompress]. *)
Theorem PalmdocUncompress_turns :
  (forall dst s d s' d' dst',
      PalmdocUncompress_step a src srcLen dstLen dst s d = Ret (s', d', dst') ->
      s < s' /\ length dst' = length dst)
  /\ (forall (fuel : nat) dst,
        srcLen <= Z.of_nat fuel ->
        PalmdocUncompress_loop a src srcLen dstLen fuel dst 0 0
        = PalmdocUncompress a src srcLen dstLen dst).
Proof.
  split.
  - apply PalmdocUncompress_step_advances.
  - intros fuel dst Hfuel. unfold PalmdocUncompress.
    apply PalmdocUncompress_loop_fuel; lia.
Qed.
End Turns.

Lemma rd_middle (pre post : list Z) x :
  rd (pre ++ x :: post) (Z.of_nat (length pre)) = Ret x.
Proof.
  apply rd_Ret. split; [lia|]. rewrite Nat2Z.id. apply list_lookup_middle. reflexivity.
Qed.

Lemma is_literal_branch c :
  is_literal c = true -> (1 <=? c) && (c <=? 8) = false /\ (c <? 128) = true.
Proof.
  unfold is_literal. intros H. apply orb_true_iff in H.
  destruct H as [H|H].
  - apply Z.eqb_eq in H. subst. split; reflexivity.
  - apply andb_true_iff in H. destruct H as [H1 H2].
    apply Z.leb_le in H1. split; [|exact H2].
    apply andb_false_iff. right. apply Z.leb_gt. lia.
Qed.

Section Escape.
Variables (a : arch) (dstLen : Z).
Hypothesis dstLen_size : dstLen < 2 ^ size_bits a.

(** One plaintext byte, sent by [palmdoc_escape], is decoded in one turn. *)
Lemma PalmdocUncompress_step_escape pre b post dst d :
  0 <= d < dstLen -> dstLen <= Z.of_nat (length dst) ->
  let enc := if is_literal b then [b] else [1; b] in
  PalmdocUncompress_step a (pre ++ enc ++ post)
    (Z.of_nat (length (pre ++ enc ++ post))) dstLen dst (Z.of_nat (length pre)) d
  = Ret (Z.of_nat (length (pre ++ enc)), d + 1, <[Z.to_nat d := b]> dst).
Proof.
  intros Hd Hlen enc. unfold PalmdocUncompress_step.
  rewrite to_size_small by lia.
  destruct (Z.eqb_spec (dstLen - d) 0); [lia|].
  subst enc. destruct (is_literal b) eqn:Hlit.
  - cbn [app]. rewrite rd_middle. cbn [bind].
    destruct (is_literal_branch b Hlit) as [-> ->].
    rewrite wr_in_range by lia. cbn [bind].
    rewrite length_app. cbn [length]. do 3 f_equal. lia.
  - cbn [app]. rewrite rd_middle. cbn [bind]. cbn [Z.leb Z.compare andb].
    destruct (Z.ltb_spec (dstLen - d) 1); [lia|].
    change (Z.to_nat 1) with 1%nat. cbn [copy_raw].
    replace (pre ++ 1 :: b :: post) with ((pre ++ [1]) ++ b :: post)
      by (rewrite <- app_assoc; reflexivity).
    replace (Z.of_nat (length pre) + 1) with (Z.of_nat (length (pre ++ [1])))
      by (rewrite length_app; cbn [length]; lia).
    rewrite rd_middle. cbn [bind].
    rewrite wr_in_range by lia. cbn [bind].
    rewrite !length_app. cbn [length]. do 3 f_equal. lia.
Qed.

Lemma PalmdocUncompress_loop_escape (text : list Z) : forall pre dst d (fuel : nat),
  0 <= d -> d + Z.of_nat (length text) <= dstLen ->
  dstLen <= Z.of_nat (length dst) ->
  (length (palmdoc_escape text) <= fuel)%nat ->
  exists dst',
    PalmdocUncompress_loop a (pre ++ palmdoc_escape text)
      (Z.of_nat (length (pre ++ palmdoc_escape text))) dstLen fuel dst
      (Z.of_nat (length pre)) d
    = Ret (d + Z.of_nat (length text), dst')
    /\ length dst' = length dst
    /\ (forall i, (i < Z.to_nat d)%nat -> dst' !! i = dst !! i)
    /\ (forall i, (i < length text)%nat -> dst' !! (Z.to_nat d + i)%nat = text !! i).
Proof.
  induction text as [|b rest IH]; intros pre dst d fuel Hd Hfit Hlen Hfuel.
  - cbn [palmdoc_escape flat_map length] in *. rewrite app_nil_r, Z.add_0_r.
    assert (Hfin : exists dst',
               PalmdocUncompress_finish a dstLen dst d = Ret (d, dst')
               /\ length dst' = length dst
               /\ (forall i, (i < Z.to_nat d)%nat -> dst' !! i = dst !! i)).
    { unfold PalmdocUncompress_finish. rewrite to_size_small by lia.
      destruct (Z.ltb_spec d dstLen).
      - rewrite wr_in_range by lia. cbn [bind]. eexists. split; [reflexivity|].
        split; [apply length_insert|]. intros i Hi. apply list_lookup_insert_ne. lia.
      - eauto. }
    destruct Hfin as (dst' & Hf & Hl & Hlow). exists dst'.
    split; [|split; [exact Hl | split; [exact Hlow | intros i Hi; cbn in Hi; lia]]].
    destruct fuel; cbn [PalmdocUncompress_loop]; [exact Hf|].
    rewrite Z.ltb_irrefl. exact Hf.
  - change (palmdoc_escape (b :: rest))
      with ((if is_literal b then [b] else [1; b]) ++ palmdoc_escape rest) in *.
    set (enc := if is_literal b then [b] else [1; b]) in *.
    assert (Henc : (1 <= length enc)%nat) by (subst enc; destruct (is_literal b); cbn; lia).
    cbn [length] in Hfit. rewrite length_app in Hfuel.
    destruct fuel as [|fuel]; [lia|]. cbn [PalmdocUncompress_loop].
    destruct (Z.ltb_spec (Z.of_nat (length pre))
                (Z.of_nat (length (pre ++ enc ++ palmdoc_escape rest)))) as [_|Hge];
      [|rewrite !length_app in Hge; lia].
    pose proof (PalmdocUncompress_step_escape pre b (palmdoc_escape rest) dst d) as Hstep.
    cbv zeta in Hstep. fold enc in Hstep. rewrite Hstep by lia. cbn [bind].
    destruct (IH (pre ++ enc) (<[Z.to_nat d := b]> dst) (d + 1) fuel)
      as (dst' & Hrun & Hl & Hlow & Htext);
      [lia | lia | rewrite length_insert; lia | lia |].
    rewrite <- app_assoc in Hrun. exists dst'.
    split; [rewrite Hrun; cbn [length]; do 2 f_equal; lia|].
    split; [rewrite Hl; apply length_insert|].
    split.
    + intros i Hi. rewrite Hlow by lia. apply list_lookup_insert_ne. lia.
    + intros i Hi. destruct i as [|i].
      * rewrite Nat.add_0_r, Hlow by lia. cbn [lookup list_lookup].
        apply list_lookup_insert_eq. lia.
      * replace (Z.to_nat d + S i)%nat with (Z.to_nat (d + 1) + i)%nat by lia.
        cbn [length] in Hi. rewrite Htext by lia. reflexivity.
Qed.

(** X5.  Round trip with [palmdoc_escape] (a literal for the bytes 0 and 9
    to 127, a raw run of length 1 for any other byte): when the text fits
    below the declared bound, [PalmdocUncompress] returns the length of the
    text and the buffer starts with the text. *)
Theorem PalmdocUncompress_escape_roundtrip (text dst : list Z) :
  Z.of_nat (length text) <= dstLen -> dstLen <= Z.of_nat (length dst) ->
  exists dst',
    PalmdocUncompress a (palmdoc_escape text)
      (Z.of_nat (length (palmdoc_escape text))) dstLen dst
    = Ret (Z.of_nat (length text), dst')
    /\ take (length text) dst' = text
    /\ length dst' = length dst.
Proof.
  intros Hfit Hlen. unfold PalmdocUncompress.
  destruct (PalmdocUncompress_loop_escape text [] dst 0
              (Z.to_nat (Z.of_nat (length (palmdoc_escape text)))))
    as (dst' & Hrun & Hl & _ & Htext); [lia | lia | lia | lia |].
  cbn [app length] in Hrun. exists dst'. split; [exact Hrun|]. split; [|exact Hl].
  apply list_eq. intros i. destruct (Nat.lt_ge_cases i (length text)) as [Hi|Hi].
  - rewrite lookup_take_lt by lia. apply (Htext i Hi).
  - rewrite lookup_take_ge by lia. symmetry. apply lookup_ge_None. lia.
Qed.

Lemma PalmdocUncompress_loop_too_small (text : list Z) : forall pre dst d (fuel : nat),
  0 <= d <= dstLen -> dstLen < d + Z.of_nat (length text) ->
  dstLen <= Z.of_nat (length dst) ->
  (length (palmdoc_escape text) <= fuel)%nat ->
  PalmdocUncompress_loop a (pre ++ palmdoc_escape text)
    (Z.of_nat (length (pre ++ palmdoc_escape text))) dstLen fuel dst
    (Z.of_nat (length pre)) d
  = Fail.
Proof.
  induction text as [|b rest IH]; intros pre dst d fuel Hd Hbig Hlen Hfuel.
  - cbn [length] in Hbig. lia.
  - change (palmdoc_escape (b :: rest))
      with ((if is_literal b then [b] else [1; b]) ++ palmdoc_escape rest) in *.
    set (enc := if is_literal b then [b] else [1; b]) in *.
    assert (Henc : (1 <= length enc)%nat) by (subst enc; destruct (is_literal b); cbn; lia).
    cbn [length] in Hbig. rewrite length_app in Hfuel.
    destruct fuel as [|fuel]; [lia|]. cbn [PalmdocUncompress_loop].
    destruct (Z.ltb_spec (Z.of_nat (length pre))
                (Z.of_nat (length (pre ++ enc ++ palmdoc_escape rest)))) as [_|Hge];
      [|rewrite !length_app in Hge; lia].
    destruct (Z.eq_dec d dstLen) as [->|Hne].
    + unfold PalmdocUncompress_step. rewrite Z.sub_diag.
      rewrite to_size_small by (split; [lia | apply Z.pow_pos_nonneg; destruct a; cbn; lia]).
      reflexivity.
    + pose proof (PalmdocUncompress_step_escape pre b (palmdoc_escape rest) dst d) as Hstep.
      cbv zeta in Hstep. fold enc in Hstep. rewrite Hstep by lia. cbn [bind].
      rewrite (app_assoc pre enc). apply IH; try lia. rewrite length_insert. lia.
Qed.

(** X6.  On the same inputs, when the text is longer than the declared
    bound, [PalmdocUncompress] returns -1: nothing is cut short. *)
Theorem PalmdocUncompress_escape_too_small (text dst : list Z) :
  0 <= dstLen < Z.of_nat (length text) -> dstLen <= Z.of_nat (length dst) ->
  PalmdocUncompress a (palmdoc_escape text)
    (Z.of_nat (length (palmdoc_escape text))) dstLen dst
  = Fail.
Proof.
  intros Hsmall Hlen. unfold PalmdocUncompress.
  apply (PalmdocUncompress_loop_too_small text [] dst 0); cbn [length]; lia.
Qed.
End Escape.

Section PalmRecord.
Variables (a : arch) (f : File) (stack_buf : list Z) (this : MobiParse).

(** X7.  With PalmDoc compression and no trailing data, a record that holds
    [palmdoc_escape text] for a text of at most 6000 bytes is loaded as
    [text], appended to the document. *)
Theorem LoadDocRecordIntoBuffer_palmdoc recNo (text strOut : list Z) :
  compressionType this = COMPRESSION_PALM ->
  trailersCount this = 0 -> multibyte this = false ->
  Z.of_nat (length stack_buf) = 6000 ->
  ReadRecord a f (recHeaders this) recNo = Ret (palmdoc_escape text) ->
  Z.of_nat (length text) <= 6000 ->
  LoadDocRecordIntoBuffer a f stack_buf this recNo strOut = Ret (strOut ++ text).
Proof.
  intros Hc Ht Hm Hbuf Hr Hfit.
  pose proof (ReadRecord_length _ _ _ _ _ Hr) as Hlen.
  pose proof (size_bits_ge_32 a) as Hw. change (2 ^ 32) with 4294967296 in Hw, Hlen.
  unfold LoadDocRecordIntoBuffer. rewrite Hr. cbn [bind]. rewrite Ht, Hm, Hc.
  unfold ExtraDataSize. change (Z.to_nat 0) with 0%nat. cbn [strip_trailers bind].
  rewrite Z.sub_diag. rewrite (to_size_small a 0) by lia. rewrite Z.sub_0_r.
  rewrite to_size_small by lia.
  change (COMPRESSION_NONE =? COMPRESSION_PALM) with false.
  change (COMPRESSION_PALM =? COMPRESSION_PALM) with true. cbv iota.
  unfold PalmdocUncompress.
  destruct (PalmdocUncompress_loop_escape a 6000 ltac:(lia) text [] stack_buf 0
              (Z.to_nat (Z.of_nat (length (palmdoc_escape text)))))
    as (dst' & Hrun & Hl & _ & Htext); [lia | lia | lia | lia |].
  cbn [app length] in Hrun. change (Z.of_nat 0) with 0 in Hrun. rewrite Hrun. cbn [bind].
  unfold Append. rewrite Z.add_0_l.
  destruct (Z.leb_spec (Z.of_nat (length text)) (Z.of_nat (length dst'))); [|lia].
  rewrite Nat2Z.id. do 2 f_equal.
  apply list_eq. intros i. destruct (Nat.lt_ge_cases i (length text)) as [Hi|Hi].
  - rewrite lookup_take_lt by lia. apply (Htext i Hi).
  - rewrite lookup_take_ge by lia. symmetry. apply lookup_ge_None. lia.
Qed.
End PalmRecord.

Lemma EqN_tag (s tag : list Z) :
  length tag = 8%nat -> EqN s tag 8 = true <-> take 8 s = tag.
Proof.
  intros Hl. unfold EqN. rewrite bool_decide_eq_true.
  rewrite (take_ge tag) by lia. reflexivity.
Qed.

Lemma offsets_monotone (tbl : list Z) n :
  (forall i, 0 <= i < n -> offset_at tbl i <= offset_at tbl (i + 1)) ->
  forall i j, 0 <= i <= j -> j <= n -> offset_at tbl i <= offset_at tbl j.
Proof.
  intros Hadj i j Hij Hj.
  assert (H : forall k : nat, i + Z.of_nat k <= n ->
            offset_at tbl i <= offset_at tbl (i + Z.of_nat k)).
  { induction k as [|k IH]; intros Hk.
    - rewrite Z.add_0_r. lia.
    - specialize (IH ltac:(lia)). specialize (Hadj (i + Z.of_nat k) ltac:(lia)).
      replace (i + Z.of_nat (S k)) with (i + Z.of_nat k + 1) by lia. lia. }
  specialize (H (Z.to_nat (j - i)) ltac:(lia)).
  replace (i + Z.of_nat (Z.to_nat (j - i))) with j in H by lia. exact H.
Qed.

Section ContainerExtras.
Variables (a : arch) (L : PdbLayout) (f : File).

(** X8.  A file whose type/creator tag is neither BOOKMOBI nor TEXtREAd is
    refused by [ParseHeader] and by [ParseFile]; and when [ParseHeader]
    succeeds, [isMobi] tells which of the two tags the file has. *)
Theorem ParseHeader_type_creator (stack_buf : list Z) :
  (stored_type L f <> MOBI_TYPE_CREATOR -> stored_type L f <> PALMDOC_TYPE_CREATOR ->
   ParseHeader a L f = Fail /\ ParseFile a L stack_buf f = Fail)
  /\ (forall st, ParseHeader a L f = Ret st ->
        if isMobi st then stored_type L f = MOBI_TYPE_CREATOR
        else stored_type L f = PALMDOC_TYPE_CREATOR).
Proof.
  assert (Hm : IsMobiPdb L (ReadFile f 0 (kPdbHeaderLen L)) = true
               <-> stored_type L f = MOBI_TYPE_CREATOR)
    by (unfold stored_type; apply EqN_tag; reflexivity).
  assert (Hp : IsPalmDocPdb L (ReadFile f 0 (kPdbHeaderLen L)) = true
               <-> stored_type L f = PALMDOC_TYPE_CREATOR)
    by (unfold stored_type; apply EqN_tag; reflexivity).
  split.
  - intros Hnm Hnp.
    assert (Hfail : ParseHeader a L f = Fail).
    { unfold ParseHeader, ParseHeader_pdb.
      destruct (negb _); [reflexivity|].
      destruct (IsMobiPdb L _); [exfalso; apply Hnm, Hm; reflexivity|].
      destruct (IsPalmDocPdb L _); [exfalso; apply Hnp, Hp; reflexivity|].
      reflexivity. }
    split; [exact Hfail|]. unfold ParseFile. rewrite Hfail. reflexivity.
  - intros st Hst. apply ParseHeader_Ret in Hst.
    destruct Hst as (mobi & n & tbl & rec0 & Hpdb & Hr & Hd).
    destruct (ParseHeader_doc_Ret a f mobi n tbl rec0 st Hr Hd) as (-> & _).
    unfold ParseHeader_pdb in Hpdb.
    destruct (negb _); [discriminate|].
    destruct (IsMobiPdb L _) eqn:Em.
    + cbn [bind] in Hpdb.
      destruct (_ <? 1); [discriminate|]. destruct (negb _); [discriminate|].
      destruct (offsets_valid _ _); [|discriminate].
      apply Ret_inj in Hpdb. injection Hpdb as <- _ _. cbn. apply Hm. reflexivity.
    + destruct (IsPalmDocPdb L _) eqn:Ep; [|discriminate]. cbn [bind] in Hpdb.
      destruct (_ <? 1); [discriminate|]. destruct (negb _); [discriminate|].
      destruct (offsets_valid _ _); [|discriminate].
      apply Ret_inj in Hpdb. injection Hpdb as <- _ _. cbn. apply Hp. reflexivity.
Qed.

(** X9.  In an accepted record table of a file below 2 GiB whose first
    offset is not negative, every record below the record count can be
    read: [ReadRecord] returns data of the size the table gives. *)
Theorem ReadRecord_all_records mobi n tbl recNo :
  ParseHeader_pdb a L f = Ret (mobi, n, tbl) ->
  0 <= fsize f < 2 ^ 31 -> 0 <= offset_at tbl 0 ->
  0 <= recNo < n ->
  exists buf,
    ReadRecord a f tbl recNo = Ret buf
    /\ Z.of_nat (length buf) = offset_at tbl (recNo + 1) - offset_at tbl recNo.
Proof.
  intros Hp Hsz H0 Hr.
  apply ParseHeader_pdb_Ret in Hp. destruct Hp as (Hn & Htbl & Hn1 & Hmono).
  rewrite offsets_valid_spec in Hmono.
  assert (Hlen : Z.of_nat (length tbl) = n + 1).
  { rewrite Htbl. unfold stored_recHeaders. rewrite <- Hn. apply length_recHeaders_of. lia. }
  assert (Hsent : offset_at tbl n = fsize f).
  { rewrite Htbl. unfold stored_recHeaders. rewrite <- Hn.
    rewrite recHeaders_of_sentinel by lia. unfold GetSize.
    rewrite to_i32_to_size. apply to_i32_small. lia. }
  assert (Hn15 : n < 2 ^ 15) by (rewrite Hn; apply to_i16_range).
  pose proof (offsets_monotone tbl n Hmono) as Hchain.
  pose proof (Hchain 0 recNo ltac:(lia) ltac:(lia)) as Hlo.
  pose proof (Hchain (recNo + 1) n ltac:(lia) ltac:(lia)) as Hhi.
  pose proof (Hmono recNo ltac:(lia)) as Hadj.
  rewrite (ReadRecord_in_table a f tbl recNo (offset_at tbl recNo) (offset_at tbl (recNo + 1)));
    try lia; try (apply offset_at_lookup; lia).
  destruct (Z.leb_spec 0 (offset_at tbl recNo)); [|lia].
  destruct (Z.leb_spec (offset_at tbl (recNo + 1) - offset_at tbl recNo)
              (Z.max 0 (fsize f - offset_at tbl recNo))); [|lia].
  cbn [andb]. eexists. split; [reflexivity|]. rewrite length_ReadFile. lia.
Qed.
End ContainerExtras.

Section HeaderExtras.
Variables (a : arch) (f : File).

(** X10.  When record 0 holds at least 10 bytes and its compression type is
    none of 1, 2 and 17480, the header is refused. *)
Theorem ParseHeader_doc_compression mobi n tbl rec0 c0 c1 :
  ReadRecord a f tbl 0 = Ret rec0 ->
  10 <= Z.of_nat (length rec0) ->
  rd rec0 0 = Ret c0 -> rd rec0 1 = Ret c1 ->
  IsValidCompression (to_i16 (be16 c0 c1)) = false ->
  ParseHeader_doc a f mobi n tbl = Fail.
Proof.
  intros Hr Hlen H0 H1 Hbad.
  unfold ParseHeader_doc. rewrite Hr. cbn [bind]. cbv zeta.
  unfold rd_be16 at 1. rewrite H0. cbn [bind]. change (0 + 1) with 1. rewrite H1. cbn [bind].
  unfold rd_be32 at 1.
  destruct (rd_in_range rec0 4) as [v4 E4]; [lia|]; rewrite E4; cbn [bind].
  destruct (rd_in_range rec0 (4 + 1)) as [v5 E5]; [lia|]; rewrite E5; cbn [bind].
  destruct (rd_in_range rec0 (4 + 2)) as [v6 E6]; [lia|]; rewrite E6; cbn [bind].
  destruct (rd_in_range rec0 (4 + 3)) as [v7 E7]; [lia|]; rewrite E7; cbn [bind].
  unfold rd_be16 at 1.
  destruct (rd_in_range rec0 8) as [v8 E8]; [lia|]; rewrite E8; cbn [bind].
  destruct (rd_in_range rec0 (8 + 1)) as [v9 E9]; [lia|]; rewrite E9; cbn [bind].
  rewrite Hbad. reflexivity.
Qed.

(** X11.  When record 0 holds 17 to 23 bytes (fewer than 8 after the
    PalmDoc header), the header is refused. *)
Theorem ParseHeader_doc_short_extension mobi n tbl rec0 :
  ReadRecord a f tbl 0 = Ret rec0 ->
  16 < Z.of_nat (length rec0) < 24 ->
  ParseHeader_doc a f mobi n tbl = Fail.
Proof.
  intros Hr Hlen. pose proof (size_bits_ge_32 a) as Hw.
  unfold ParseHeader_doc. rewrite Hr. cbn [bind]. cbv zeta.
  unfold rd_be16 at 1.
  destruct (rd_in_range rec0 0) as [v0 E0]; [lia|]; rewrite E0; cbn [bind].
  destruct (rd_in_range rec0 (0 + 1)) as [v1 E1]; [lia|]; rewrite E1; cbn [bind].
  unfold rd_be32 at 1.
  destruct (rd_in_range rec0 4) as [v4 E4]; [lia|]; rewrite E4; cbn [bind].
  destruct (rd_in_range rec0 (4 + 1)) as [v5 E5]; [lia|]; rewrite E5; cbn [bind].
  destruct (rd_in_range rec0 (4 + 2)) as [v6 E6]; [lia|]; rewrite E6; cbn [bind].
  destruct (rd_in_range rec0 (4 + 3)) as [v7 E7]; [lia|]; rewrite E7; cbn [bind].
  unfold rd_be16 at 1.
  destruct (rd_in_range rec0 8) as [v8 E8]; [lia|]; rewrite E8; cbn [bind].
  destruct (rd_in_range rec0 (8 + 1)) as [v9 E9]; [lia|]; rewrite E9; cbn [bind].
  destruct (negb (IsValidCompression _)); [reflexivity|].
  destruct (rd_in_range rec0 12) as [v12 E12]; [lia|].
  destruct (rd_in_range rec0 13) as [v13 E13]; [lia|].
  assert (Henc : forall k : unit -> outcome MobiParse,
             (forall u, k u = Fail) ->
             bind (if mobi
                   then let* e0 := rd rec0 12 in
                        let* e1 := rd rec0 13 in
                        if negb (to_i16 (be16 e1 e0) =? ENCRYPTION_NONE) then Fail else Ret tt
                   else Ret tt) k = Fail).
  { intros k Hk. destruct mobi; [|apply Hk].
    rewrite E12, E13. cbn [bind]. destruct (negb _); [reflexivity | apply Hk]. }
  apply Henc. intros _.
  unfold kPalmDocHeaderLen. rewrite to_size_small by lia.
  destruct (Z.eqb_spec (Z.of_nat (length rec0) - 16) 0); [lia|].
  destruct (Z.ltb_spec (Z.of_nat (length rec0) - 16) 8); [reflexivity | lia].
Qed.
End HeaderExtras.

Lemma rd_not_Fail (buf : list Z) i : rd buf i <> Fail.
Proof.
  unfold rd. destruct ((0 <=? i) && (i <? Z.of_nat (length buf))); [|discriminate].
  destruct (buf !! Z.to_nat i); discriminate.
Qed.

Lemma rd_outside (buf : list Z) i : Z.of_nat (length buf) <= i -> rd buf i = Undef.
Proof.
  intros H. unfold rd. destruct (Z.ltb_spec i (Z.of_nat (length buf))); [lia|].
  rewrite andb_false_r. reflexivity.
Qed.

Lemma rd_be32_not_Fail (buf : list Z) i : rd_be32 buf i <> Fail.
Proof.
  unfold rd_be32.
  destruct (rd buf i) eqn:E0; cbn [bind]; [|apply rd_not_Fail in E0; contradiction|discriminate].
  destruct (rd buf (i + 1)) eqn:E1; cbn [bind]; [|apply rd_not_Fail in E1; contradiction|discriminate].
  destruct (rd buf (i + 2)) eqn:E2; cbn [bind]; [|apply rd_not_Fail in E2; contradiction|discriminate].
  destruct (rd buf (i + 3)) eqn:E3; cbn [bind]; [|apply rd_not_Fail in E3; contradiction|discriminate].
  discriminate.
Qed.

Lemma rd_be32_outside (buf : list Z) i :
  Z.of_nat (length buf) <= i + 3 -> rd_be32 buf i = Undef.
Proof.
  intros H. unfold rd_be32.
  destruct (rd buf i) eqn:E0; cbn [bind]; [|apply rd_not_Fail in E0; contradiction|reflexivity].
  destruct (rd buf (i + 1)) eqn:E1; cbn [bind]; [|apply rd_not_Fail in E1; contradiction|reflexivity].
  destruct (rd buf (i + 2)) eqn:E2; cbn [bind]; [|apply rd_not_Fail in E2; contradiction|reflexivity].
  rewrite rd_outside by lia. reflexivity.
Qed.

Lemma rd_be32_in_range (buf : list Z) i :
  0 <= i -> i + 3 < Z.of_nat (length buf) -> exists v, rd_be32 buf i = Ret v.
Proof.
  intros H0 H3. unfold rd_be32.
  destruct (rd_in_range buf i) as [v0 E0]; [lia|]; rewrite E0; cbn [bind].
  destruct (rd_in_range buf (i + 1)) as [v1 E1]; [lia|]; rewrite E1; cbn [bind].
  destruct (rd_in_range buf (i + 2)) as [v2 E2]; [lia|]; rewrite E2; cbn [bind].
  destruct (rd_in_range buf (i + 3)) as [v3 E3]; [lia|]; rewrite E3; cbn [bind].
  eauto.
Qed.

Lemma swap_fields_not_Fail (buf : list Z) offs : swap_fields buf offs <> Fail.
Proof.
  induction offs as [|o offs IH]; cbn [swap_fields]; [discriminate|].
  destruct (rd_be32 buf o) eqn:E; cbn [bind]; [exact IH | | discriminate].
  apply rd_be32_not_Fail in E. contradiction.
Qed.

Lemma swap_fields_outside (buf : list Z) offs o :
  In o offs -> Z.of_nat (length buf) <= o + 3 -> swap_fields buf offs = Undef.
Proof.
  induction offs as [|o' offs IH]; intros Hin Hout; [destruct Hin|].
  cbn [swap_fields]. destruct Hin as [->|Hin].
  - rewrite rd_be32_outside by lia. reflexivity.
  - destruct (rd_be32 buf o') eqn:E; cbn [bind]; [auto | | reflexivity].
    apply rd_be32_not_Fail in E. contradiction.
Qed.

Lemma bind_Undef {A B} (m : outcome A) (k : A -> outcome B) :
  m <> Fail -> (forall x, k x = Undef) -> bind m k = Undef.
Proof. intros Hm Hk. destruct m; cbn [bind]; [apply Hk | contradiction | reflexivity]. Qed.

Section ShortMobiHeader.
Variables (a : arch) (f : File).

(** X12.  The fields of the MOBI header are swapped before its length is
    compared with the record: when record 0 holds 24 to 131 bytes, a
    supported compression type, no encryption and the MOBI id,
    [ParseHeader] accesses bytes outside the record. *)
Theorem ParseHeader_doc_swaps_past_record mobi n tbl rec0 ct :
  ReadRecord a f tbl 0 = Ret rec0 ->
  24 <= Z.of_nat (length rec0) < 132 ->
  rd_be16 rec0 0 = Ret ct -> IsValidCompression (to_i16 ct) = true ->
  (mobi = true -> rd rec0 12 = Ret 0 /\ rd rec0 13 = Ret 0) ->
  take 4 (drop 16 rec0) = MOBI_ID ->
  ParseHeader_doc a f mobi n tbl = Undef.
Proof.
  intros Hr Hlen Hct Hvalid Henc Hid. pose proof (size_bits_ge_32 a) as Hw.
  unfold ParseHeader_doc. rewrite Hr. cbn [bind]. cbv zeta.
  rewrite Hct. cbn [bind].
  destruct (rd_be32_in_range rec0 4) as [us Eus]; [lia | lia |]. rewrite Eus.
  cbn [bind]. unfold rd_be16 at 1.
  destruct (rd_in_range rec0 8) as [v8 E8]; [lia|]; rewrite E8; cbn [bind].
  destruct (rd_in_range rec0 (8 + 1)) as [v9 E9]; [lia|]; rewrite E9; cbn [bind].
  rewrite Hvalid. cbn [negb].
  assert (Hpass : (if mobi
                   then let* e0 := rd rec0 12 in
                        let* e1 := rd rec0 13 in
                        if negb (to_i16 (be16 e1 e0) =? ENCRYPTION_NONE) then Fail else Ret tt
                   else Ret tt) = Ret tt).
  { destruct mobi; [|reflexivity]. destruct (Henc eq_refl) as [-> ->]. reflexivity. }
  rewrite Hpass. cbn [bind].
  unfold kPalmDocHeaderLen. rewrite to_size_small by lia.
  destruct (Z.eqb_spec (Z.of_nat (length rec0) - 16) 0); [lia|].
  destruct (Z.ltb_spec (Z.of_nat (length rec0) - 16) 8); [lia|].
  assert (Hids : exists i0 i1 i2 i3,
             rd rec0 16 = Ret i0 /\ rd rec0 (16 + 1) = Ret i1
             /\ rd rec0 (16 + 2) = Ret i2 /\ rd rec0 (16 + 3) = Ret i3
             /\ [i0; i1; i2; i3] = MOBI_ID).
  { destruct (rd_in_range rec0 16) as [i0 E0]; [lia|].
    destruct (rd_in_range rec0 (16 + 1)) as [i1 E1]; [lia|].
    destruct (rd_in_range rec0 (16 + 2)) as [i2 E2]; [lia|].
    destruct (rd_in_range rec0 (16 + 3)) as [i3 E3]; [lia|].
    exists i0, i1, i2, i3. repeat (split; [assumption|]).
    rewrite <- Hid. apply rd_Ret in E0, E1, E2, E3.
    destruct E0 as [_ E0], E1 as [_ E1], E2 as [_ E2], E3 as [_ E3].
    change (Z.to_nat 16) with 16%nat in E0. change (Z.to_nat (16 + 1)) with 17%nat in E1.
    change (Z.to_nat (16 + 2)) with 18%nat in E2. change (Z.to_nat (16 + 3)) with 19%nat in E3.
    apply list_eq. intros i.
    destruct i as [|[|[|[|i]]]]; cbn [lookup list_lookup];
      rewrite ?lookup_take_lt, ?lookup_drop by lia; cbn [Nat.add]; auto.
    rewrite lookup_take_ge by lia. reflexivity. }
  destruct Hids as (i0 & i1 & i2 & i3 & -> & -> & -> & -> & Hq). cbn [bind].
  rewrite Hq. change (negb (EqN MOBI_ID MOBI_ID 4)) with false. cbv iota.
  apply bind_Undef; [apply rd_be32_not_Fail|]. intros hdrLen.
  destruct (Z.lt_ge_cases (Z.of_nat (length rec0)) 116) as [Hshort|Hlong].
  - apply bind_Undef; [apply swap_fields_not_Fail|]. intros _.
    rewrite rd_be32_outside by (unfold mobiHdr_huffmanFirstRec; lia). reflexivity.
  - apply bind_Undef; [apply swap_fields_not_Fail|]. intros _.
    apply bind_Undef; [apply rd_be32_not_Fail|]. intros first.
    apply bind_Undef; [apply rd_be32_not_Fail|]. intros cnt.
    rewrite (swap_fields_outside rec0 _ (16 + 112)); [reflexivity | | lia].
    cbn. auto.
Qed.
End ShortMobiHeader.

Lemma high_bit_byte b :
  128 <= b < 256 -> Z.land b 128 = 128 /\ Z.land b 127 = b - 128.
Proof.
  intros Hb.
  assert (Hall : forallb (fun b => (Z.land b 128 =? 128) && (Z.land b 127 =? b - 128))
                   (seqZ 128 128) = true) by (vm_compute; reflexivity).
  rewrite forallb_forall in Hall. specialize (Hall b).
  rewrite <- list_elem_of_In, elem_of_seqZ in Hall.
  specialize (Hall ltac:(lia)). apply andb_true_iff in Hall.
  destruct Hall as [H1 H2]. apply Z.eqb_eq in H1, H2. auto.
Qed.

Section Trailers.
Variable a : arch.

(** X13.  One trailer whose size fits in the last byte of the record (high
    bit set, low seven bits [n], [n] at most the record length):
    [ExtraDataSize] returns [n]. *)
Theorem ExtraDataSize_one_trailer (recData : list Z) b :
  let recLen := Z.of_nat (length recData) in
  4 <= recLen < 2 ^ 32 ->
  recData !! Z.to_nat (recLen - 1) = Some b ->
  128 <= b < 256 -> b - 128 <= recLen ->
  ExtraDataSize a recData recLen 1 false = Ret (b - 128).
Proof.
  intros recLen Hlen Hlast Hb Hfit. pose proof (size_bits_ge_32 a) as Hw.
  destruct (high_bit_byte b Hb) as [Hhigh Hlow].
  unfold ExtraDataSize. change (Z.to_nat 1) with 1%nat. cbn [strip_trailers].
  assert (Hn : trailer_len a recData recLen 4 0 0 = Ret (b - 128)).
  { cbn [trailer_len].
    rewrite !to_size_small by lia.
    destruct (rd_in_range recData (recLen - 4 + 0)) as [v0 E0]; [lia|]; rewrite E0; cbn [bind].
    destruct (rd_in_range recData (recLen - 4 + (0 + 1))) as [v1 E1]; [lia|];
      rewrite E1; cbn [bind].
    destruct (rd_in_range recData (recLen - 4 + (0 + 1 + 1))) as [v2 E2]; [lia|];
      rewrite E2; cbn [bind].
    replace (recLen - 4 + (0 + 1 + 1 + 1)) with (recLen - 1) by lia.
    rewrite (rd_lookup recData (recLen - 1) b) by (auto; lia). cbn [bind].
    rewrite Hhigh, Hlow. cbn [Z.eqb negb]. rewrite Z.shiftl_0_l, Z.lor_0_l.
    f_equal. apply to_u32_small. lia. }
  rewrite Hn. cbn [bind]. f_equal.
  rewrite (to_size_small a (recLen - (b - 128))) by lia.
  replace (recLen - (recLen - (b - 128))) with (b - 128) by lia.
  apply to_size_small. lia.
Qed.

(** X14.  The multibyte trailer alone: with last byte [b],
    [ExtraDataSize] returns [(b & 3) + 1] when that is at most the record
    length. *)
Theorem ExtraDataSize_multibyte (recData : list Z) b :
  let recLen := Z.of_nat (length recData) in
  1 <= recLen < 2 ^ 32 ->
  recData !! Z.to_nat (recLen - 1) = Some b ->
  0 <= b -> Z.land b 3 + 1 <= recLen ->
  ExtraDataSize a recData recLen 0 true = Ret (Z.land b 3 + 1).
Proof.
  intros recLen Hlen Hlast Hb Hfit. pose proof (size_bits_ge_32 a) as Hw.
  assert (Hl3 : 0 <= Z.land b 3 <= 3).
  { change 3 with (Z.ones 2). rewrite Z.land_ones by lia.
    pose proof (Z.mod_pos_bound b (2 ^ 2) eq_refl). change (2 ^ 2) with 4 in *.
    change (Z.ones 2) with 3. lia. }
  unfold ExtraDataSize. change (Z.to_nat 0) with 0%nat. cbn [strip_trailers bind].
  destruct (Z.ltb_spec 0 recLen); [|lia].
  rewrite (rd_lookup recData (recLen - 1) b) by (auto; lia). cbn [bind].
  assert (Hu8 : to_u8 (Z.land b 3 + 1) = Z.land b 3 + 1).
  { apply Z.mod_small. change (2 ^ 8) with 256. lia. }
  rewrite Hu8. f_equal.
  rewrite (to_size_small a (recLen - (Z.land b 3 + 1))) by lia.
  replace (recLen - (recLen - (Z.land b 3 + 1))) with (Z.land b 3 + 1) by lia.
  apply to_size_small. lia.
Qed.
End Trailers.

Section Concat.
Variables (a : arch) (f : File) (stack_buf : list Z) (this : MobiParse).
Hypothesis no_compression : compressionType this = COMPRESSION_NONE.
Hypothesis no_trailers : trailersCount this = 0.
Hypothesis no_multibyte : multibyte this = false.

Lemma LoadDocRecordIntoBuffer_plain recNo rec strOut :
  ReadRecord a f (recHeaders this) recNo = Ret rec ->
  LoadDocRecordIntoBuffer a f stack_buf this recNo strOut = Ret (strOut ++ rec).
Proof.
  intros Hr. pose proof (ReadRecord_length _ _ _ _ _ Hr) as Hlen.
  pose proof (size_bits_ge_32 a) as Hw.
  unfold LoadDocRecordIntoBuffer. rewrite Hr. cbn [bind].
  rewrite no_trailers, no_multibyte, no_compression.
  unfold ExtraDataSize. change (Z.to_nat 0) with 0%nat. cbn [strip_trailers bind].
  rewrite Z.sub_diag. rewrite (to_size_small a 0) by lia. rewrite Z.sub_0_r.
  rewrite to_size_small by lia. cbn [Z.eqb Pos.eqb COMPRESSION_NONE].
  unfold Append. destruct (Z.leb_spec (Z.of_nat (length rec)) (Z.of_nat (length rec))); [|lia].
  rewrite Nat2Z.id, firstn_all. reflexivity.
Qed.

Lemma LoadDocument_loop_plain (recs : list (list Z)) : forall i0 doc0,
  (forall i r, recs !! i = Some r ->
     ReadRecord a f (recHeaders this) (i0 + Z.of_nat i) = Ret r) ->
  LoadDocument_loop a f stack_buf this (length recs) i0 doc0 = Ret (doc0 ++ concat recs).
Proof.
  induction recs as [|r recs IH]; intros i0 doc0 Hrecs; cbn [length LoadDocument_loop concat].
  - rewrite app_nil_r. reflexivity.
  - rewrite (LoadDocRecordIntoBuffer_plain i0 r doc0).
    + cbn [bind]. rewrite IH.
      * rewrite <- app_assoc. reflexivity.
      * intros i r' Hi. replace (i0 + 1 + Z.of_nat i) with (i0 + Z.of_nat (S i)) by lia.
        apply Hrecs. exact Hi.
    + specialize (Hrecs 0%nat r eq_refl). rewrite Z.add_0_r in Hrecs. exact Hrecs.
Qed.

(** X15.  Without compression and without trailing data, [LoadDocument]
    appends the records 1 to [docRecCount], in this order and unchanged, to
    the document. *)
Theorem LoadDocument_uncompressed (recs : list (list Z)) :
  docRecCount this = Z.of_nat (length recs) ->
  (forall i r, recs !! i = Some r ->
     ReadRecord a f (recHeaders this) (1 + Z.of_nat i) = Ret r) ->
  exists st,
    LoadDocument a f stack_buf this = Ret st
    /\ doc st = doc this ++ concat recs.
Proof.
  intros Hcount Hrecs. unfold LoadDocument. rewrite Hcount, Nat2Z.id.
  rewrite (LoadDocument_loop_plain recs 1 (doc this) Hrecs). cbn [bind].
  eexists. split; reflexivity.
Qed.
End Concat.

Lemma UnpackCacheData_entry_cases v (i : nat) (d : list Dict1Entry) :
  (i < length d)%nat ->
  match UnpackCacheData_entry v i d with
  | inl d' => bad_cache_entry v /\ length d' = length d
              /\ forall j, j <> i -> d' !! j = d !! j
  | inr d' => ~ bad_cache_entry v /\ length d' = length d
              /\ d' !! i = Some (unpacked_entry v)
              /\ forall j, j <> i -> d' !! j = d !! j
  end.
Proof.
  intros Hi. unfold UnpackCacheData_entry, bad_cache_entry.
  destruct (lookup_lt_is_Some_2 d i Hi) as [e He].
  destruct (Z.eqb_spec (Z.land v 31) 0) as [E0|E0].
  - split; [auto|]. split; [apply length_alter|].
    intros j Hj. apply list_lookup_alter_ne. auto.
  - destruct (Z.leb_spec (Z.land v 31) 8) as [E8|E8];
      destruct (Z.eqb_spec (Z.land v 128) 0) as [Et|Et]; cbn [andb].
    + split; [auto|]. split; [rewrite !length_alter; reflexivity|].
      intros j Hj. rewrite !list_lookup_alter_ne by auto. reflexivity.
    + split; [intros [H|[_ H]]; contradiction|].
      split; [rewrite !length_alter; reflexivity|]. split.
      * rewrite !list_lookup_alter_eq, He. reflexivity.
      * intros j Hj. rewrite !list_lookup_alter_ne by auto. reflexivity.
    + split; [intros [H|[H _]]; [contradiction | lia]|].
      split; [rewrite !length_alter; reflexivity|]. split.
      * rewrite !list_lookup_alter_eq, He. reflexivity.
      * intros j Hj. rewrite !list_lookup_alter_ne by auto. reflexivity.
    + split; [intros [H|[H _]]; [contradiction | lia]|].
      split; [rewrite !length_alter; reflexivity|]. split.
      * rewrite !list_lookup_alter_eq, He. reflexivity.
      * intros j Hj. rewrite !list_lookup_alter_ne by auto. reflexivity.
Qed.

Lemma UnpackCacheData_loop_spec data cache (n : nat) : forall (i : nat) d b d',
  (i + n <= length d)%nat ->
  UnpackCacheData_loop n i data cache d = Ret (b, d') ->
  length d' = length d
  /\ (forall j, (j < i)%nat -> d' !! j = d !! j)
  /\ (b = true ->
      forall j, (i <= j < i + n)%nat ->
        exists v, rd_be32 data (cache + 4 * Z.of_nat j) = Ret v
                  /\ ~ bad_cache_entry v
                  /\ d' !! j = Some (unpacked_entry v))
  /\ (b = false ->
      exists j v, (i <= j < i + n)%nat
                  /\ rd_be32 data (cache + 4 * Z.of_nat j) = Ret v
                  /\ bad_cache_entry v).
Proof.
  induction n as [|n IH]; intros i d b d' Hlen H; cbn [UnpackCacheData_loop] in H.
  - apply Ret_inj in H. injection H as <- <-.
    split; [reflexivity|]. split; [auto|]. split; [intros _ j Hj; lia | discriminate].
  - destruct (rd_be32 data (cache + 4 * Z.of_nat i)) as [v| |] eqn:Ev; try discriminate.
    cbn [bind] in H.
    pose proof (UnpackCacheData_entry_cases v i d ltac:(lia)) as Hentry.
    destruct (UnpackCacheData_entry v i d) as [d1|d1].
    + apply Ret_inj in H. injection H as <- <-.
      destruct Hentry as (Hbad & Hl & Hother).
      split; [exact Hl|]. split; [intros j Hj; apply Hother; lia|].
      split; [discriminate|]. intros _. exists i, v. split; [lia | auto].
    + destruct Hentry as (Hgood & Hl & Hi & Hother).
      destruct (IH (S i) d1 b d' ltac:(lia) H) as (Hl' & Hlow & Htrue & Hfalse).
      split; [congruence|]. split.
      * intros j Hj. rewrite Hlow by lia. apply Hother. lia.
      * split.
        -- intros Hb j Hj. destruct (Nat.eq_dec j i) as [->|Hne].
           ++ exists v. split; [exact Ev|]. split; [exact Hgood|].
              rewrite Hlow by lia. exact Hi.
           ++ apply Htrue; [exact Hb | lia].
        -- intros Hb. destruct (Hfalse Hb) as (j & v' & Hj & Hv' & Hbad).
           exists j, v'. split; [lia | auto].
Qed.

(** X16.  When [UnpackCacheData] returns true, each of the 256 entries of
    [dict1] is the unpacked cache word, its code length is from 1 to 31, and
    a code length of at most 8 comes with a non-zero terminal flag; when it
    returns false, some cache word has code length 0 or is a non-terminal
    code of at most 8 bits. *)
Theorem UnpackCacheData_result data cache (d : list Dict1Entry) b d' :
  length d = 256%nat ->
  UnpackCacheData data cache d = Ret (b, d') ->
  length d' = 256%nat
  /\ (b = true ->
      forall j, (j < 256)%nat ->
        exists v, rd_be32 data (cache + 4 * Z.of_nat j) = Ret v
                  /\ d' !! j = Some (unpacked_entry v)
                  /\ 1 <= Z.land v 31 <= 31
                  /\ (Z.land v 31 <= 8 -> Z.land v 128 <> 0))
  /\ (b = false ->
      exists j v, (j < 256)%nat
                  /\ rd_be32 data (cache + 4 * Z.of_nat j) = Ret v
                  /\ bad_cache_entry v).
Proof.
  intros Hlen H. unfold UnpackCacheData in H.
  destruct (UnpackCacheData_loop_spec data cache 256 0 d b d' ltac:(lia) H)
    as (Hl & _ & Htrue & Hfalse).
  split; [congruence|]. split.
  - intros Hb j Hj. destruct (Htrue Hb j ltac:(lia)) as (v & Hv & Hgood & He).
    exists v. split; [exact Hv|]. split; [exact He|].
    assert (H31 : 0 <= Z.land v 31 <= 31).
    { change 31 with (Z.ones 5). rewrite Z.land_ones by lia.
      pose proof (Z.mod_pos_bound v (2 ^ 5) eq_refl). change (2 ^ 5) with 32 in *.
      change (Z.ones 5) with 31. lia. }
    unfold bad_cache_entry in Hgood.
    split; [lia|]. intros H8 Ht. apply Hgood. right. auto.
  - intros Hb. destruct (Hfalse Hb) as (j & v & Hj & Hv & Hbad).
    exists j, v. split; [lia | auto].
Qed.

Lemma GetBufForRecordData_ok S st size b st' :
  bufs_ok st -> GetBufForRecordData S st size = (b, st') ->
  bufs_ok st' /\ size <= capacity S st' b /\ bufDynamicSize st <= bufDynamicSize st'.
Proof.
  unfold GetBufForRecordData, bufs_ok. intros Hok.
  destruct (Z.leb_spec size S) as [Hs|Hs].
  - intros Hr; injection Hr as <- <-. cbn. lia.
  - destruct (Z.leb_spec size (bufDynamicSize st)) as [Hd|Hd].
    + intros Hr; injection Hr as <- <-. cbn. lia.
    + intros Hr; injection Hr as <- <-. cbn. lia.
Qed.

(** X18.  In any run of calls of [GetBufForRecordData] that starts with
    [bufDynamicSize] at most the size of [bufDynamic] (as after the
    constructor), the buffer returned for a request holds at least the
    requested size, and [bufDynamicSize] never decreases. *)
Theorem GetBufForRecordData_holds_size S (sizes : list Z) : forall st size b st',
  bufs_ok st ->
  In (size, b, st') (GetBuf_run S st sizes) ->
  size <= capacity S st' b /\ bufDynamicSize st <= bufDynamicSize st'.
Proof.
  induction sizes as [|sz sizes IH]; intros st size b st' Hok Hin; [destruct Hin|].
  cbn [GetBuf_run] in Hin.
  destruct (GetBufForRecordData S st sz) as [b1 st1] eqn:E.
  destruct (GetBufForRecordData_ok S st sz b1 st1 Hok E) as (Hok1 & Hcap & Hmono).
  destruct Hin as [Heq|Hin].
  - injection Heq as <- <- <-. auto.
  - destruct (IH st1 size b st' Hok1 Hin) as [H1 H2]. split; [exact H1 | lia].
Qed.

Lemma SwapU32_at_Ret (buf : list Z) i v buf' :
  SwapU32_at buf i = Ret (v, buf') ->
  rd_be32 buf i = Ret v /\ length buf' = length buf
  /\ (forall j, (Z.of_nat j < i \/ i + 4 <= Z.of_nat j) -> buf' !! j = buf !! j).
Proof.
  unfold SwapU32_at, rd_be32.
  destruct (rd buf i) as [b0| |] eqn:E0; try discriminate. cbn [bind].
  destruct (rd buf (i + 1)) as [b1| |] eqn:E1; try discriminate. cbn [bind].
  destruct (rd buf (i + 2)) as [b2| |] eqn:E2; try discriminate. cbn [bind].
  destruct (rd buf (i + 3)) as [b3| |] eqn:E3; try discriminate. cbn [bind].
  apply rd_length in E0, E3.
  rewrite wr_in_range by lia. cbn [bind].
  rewrite wr_in_range by (rewrite !length_insert; lia). cbn [bind].
  rewrite wr_in_range by (rewrite !length_insert; lia). cbn [bind].
  rewrite wr_in_range by (rewrite !length_insert; lia). cbn [bind].
  intros H. apply Ret_inj in H. injection H as <- <-.
  split; [reflexivity|]. split; [rewrite !length_insert; reflexivity|].
  intros j Hj. rewrite !list_lookup_insert_ne by lia. reflexivity.
Qed.

Lemma rd_be32_agree (buf buf' : list Z) i :
  length buf' = length buf ->
  (forall j, i <= Z.of_nat j < i + 4 -> buf' !! j = buf !! j) ->
  rd_be32 buf' i = rd_be32 buf i.
Proof.
  intros Hl Hsame.
  assert (Hrd : forall k, i <= k < i + 4 -> rd buf' k = rd buf k).
  { intros k Hk. unfold rd. rewrite Hl.
    destruct ((0 <=? k) && (k <? Z.of_nat (length buf))) eqn:E; [|reflexivity].
    apply andb_true_iff in E. destruct E as [E1 E2]. apply Z.leb_le in E1.
    rewrite Hsame by lia. reflexivity. }
  unfold rd_be32. rewrite !Hrd by lia. reflexivity.
Qed.

(** X17.  When [SetHuffData] succeeds: the data has at least 24 bytes and
    starts with HUFF, the header length is 24, the base table offset is the
    cache offset plus 1024 (in 32-bit arithmetic) and lies below the data
    length, the base table runs from there to the end of the data, and the
    copy kept has the declared length. *)
Theorem SetHuffData_accepts this (huffData : list Z) huffDataLen hd :
  SetHuffData this huffData huffDataLen = Ret hd ->
  kHuffHeaderLen <= huffDataLen <= Z.of_nat (length huffData)
  /\ take 4 huffData = HUFF_ID
  /\ rd_be32 huffData 4 = Ret kHuffHeaderLen
  /\ (exists cacheOffset,
        rd_be32 huffData 8 = Ret cacheOffset
        /\ baseTable hd = to_u32 (cacheOffset + 1024))
  /\ rd_be32 huffData 12 = Ret (baseTable hd)
  /\ 0 <= baseTable hd /\ 0 < baseTableLen hd
  /\ baseTable hd + baseTableLen hd = huffDataLen
  /\ exists data, huffmanData hd = Some data /\ Z.of_nat (length data) = huffDataLen.
Proof.
  unfold SetHuffData. intros H.
  destruct (Z.ltb_spec huffDataLen kHuffHeaderLen) as [|Hlen24]; [discriminate|].
  destruct (SwapU32_at huffData 4) as [[hdrLen buf1]| |] eqn:S1; try discriminate.
  cbn [bind] in H.
  destruct (SwapU32_at buf1 8) as [[cacheOffset buf2]| |] eqn:S2; try discriminate.
  cbn [bind] in H.
  destruct (SwapU32_at buf2 12) as [[baseTableOffset buf3]| |] eqn:S3; try discriminate.
  cbn [bind] in H.
  apply SwapU32_at_Ret in S1, S2, S3.
  destruct S1 as (R1 & L1 & O1), S2 as (R2 & L2 & O2), S3 as (R3 & L3 & O3).
  destruct (rd buf3 0) as [id0| |] eqn:I0; try discriminate. cbn [bind] in H.
  destruct (rd buf3 1) as [id1| |] eqn:I1; try discriminate. cbn [bind] in H.
  destruct (rd buf3 2) as [id2| |] eqn:I2; try discriminate. cbn [bind] in H.
  destruct (rd buf3 3) as [id3| |] eqn:I3; try discriminate. cbn [bind] in H.
  destruct (EqN HUFF_ID [id0; id1; id2; id3] 4) eqn:Eid; [|discriminate]. cbn [negb] in H.
  destruct (Z.eqb_spec hdrLen kHuffHeaderLen) as [->|]; [|discriminate]. cbn [negb] in H.
  destruct (Z.eqb_spec baseTableOffset (to_u32 (cacheOffset + 1024))) as [Hbase|];
    [|discriminate]. cbn [negb] in H.
  destruct (Z.leb_spec huffDataLen baseTableOffset) as [|Hin]; [discriminate|].
  destruct (Z.leb_spec huffDataLen (Z.of_nat (length buf3))) as [Hobj|]; [|discriminate].
  cbn [negb] in H.
  destruct (UnpackCacheData _ _ _) as [[b d]| |] eqn:Eu; try discriminate.
  cbn [bind] in H. apply Ret_inj in H. subst hd. cbn [baseTable baseTableLen huffmanData].
  assert (Hu : 0 <= to_u32 (cacheOffset + 1024) < 2 ^ 32)
    by (apply (Z.mod_pos_bound _ (2 ^ 32)); reflexivity).
  split; [lia|].
  split.
  { unfold EqN in Eid. apply bool_decide_eq_true in Eid. cbn [take HUFF_ID] in Eid.
    injection Eid as <- <- <- <-. apply rd_Ret in I0, I1, I2, I3.
    destruct I0 as [_ I0], I1 as [_ I1], I2 as [_ I2], I3 as [_ I3].
    rewrite O3, O2, O1 in I0, I1, I2, I3 by (cbn; lia).
    apply list_eq. intros i.
    destruct i as [|[|[|[|i]]]]; rewrite ?lookup_take_lt by lia; auto.
    rewrite lookup_take_ge by lia. reflexivity. }
  split; [exact R1|].
  assert (R2' : rd_be32 huffData 8 = Ret cacheOffset).
  { rewrite <- R2. symmetry. apply rd_be32_agree; [exact L1|]. intros j Hj. apply O1. lia. }
  assert (R3' : rd_be32 huffData 12 = Ret baseTableOffset).
  { rewrite <- R3. symmetry.
    rewrite <- (rd_be32_agree huffData buf1 12 L1) by (intros j Hj; apply O1; lia).
    apply rd_be32_agree; [exact L2|]. intros j Hj. apply O2. lia. }
  split; [exists cacheOffset; auto|].
  split; [exact R3'|]. split; [lia|]. split; [lia|]. split; [lia|].
  eexists. split; [reflexivity|]. rewrite length_take. lia.
Qed.

(** ** Instances of the further properties *)

Lemma PalmdocUncompress_turns_witness :
  PalmdocUncompress_loop Win32 [72; 105] 2 4 10 [9; 9; 9; 9] 0 0
  = PalmdocUncompress Win32 [72; 105] 2 4 [9; 9; 9; 9].
Proof. apply (proj2 (PalmdocUncompress_turns Win32 [72; 105] 2 4)). lia. Defined.

Lemma PalmdocUncompress_no_backref_bounded_witness :
  0 <= 2 <= 4 /\ length [72; 105; 0; 9] = length [9; 9; 9; 9].
Proof.
  apply (PalmdocUncompress_no_backref_bounded Win32 [72; 105] 2 4 [9; 9; 9; 9]).
  - repeat constructor; lia.
  - split; [lia | reflexivity].
  - reflexivity.
Defined.

Lemma PalmdocUncompress_step_raw_run_witness :
  exists dst',
    PalmdocUncompress_step Win32 [2; 200; 201] 3 4 [0; 0; 0; 0] 0 0 = Ret (3, 2, dst')
    /\ dst' !! 1%nat = Some 201.
Proof.
  destruct (PalmdocUncompress_step_raw_run Win32 [2; 200; 201] 3 4 [0; 0; 0; 0] 0 0 2)
    as (dst' & H & _ & _ & Hcopy);
    [reflexivity | lia | cbn; lia | lia | lia | cbn; lia | reflexivity |].
  exists dst'. split; [exact H|]. apply (Hcopy 1). lia.
Defined.

Lemma PalmdocUncompress_step_space_pair_witness :
  PalmdocUncompress_step Win32 [193] 1 4 [0; 0; 0; 0] 0 0 = Ret (1, 2, [32; 65; 0; 0]).
Proof.
  apply (PalmdocUncompress_step_space_pair Win32 [193] 1 4 [0; 0; 0; 0] 0 0 193);
    [reflexivity | lia | lia | lia | cbn; lia | reflexivity].
Defined.

Lemma PalmdocUncompress_escape_roundtrip_witness :
  exists dst',
    PalmdocUncompress Win32 [72; 1; 200] 3 4 [0; 0; 0; 0] = Ret (2, dst')
    /\ take 2 dst' = [72; 200] /\ length dst' = 4%nat.
Proof.
  apply (PalmdocUncompress_escape_roundtrip Win32 4 ltac:(reflexivity) [72; 200] [0; 0; 0; 0]);
    cbn; lia.
Defined.

Lemma PalmdocUncompress_escape_too_small_witness :
  PalmdocUncompress Win32 [72; 1; 200; 33] 4 2 [0; 0] = Fail.
Proof.
  apply (PalmdocUncompress_escape_too_small Win32 2 ltac:(reflexivity) [72; 200; 33] [0; 0]);
    cbn; lia.
Defined.

Lemma ParseHeader_type_creator_witness :
  ParseHeader Win32 palm_layout file_unknown = Fail
  /\ ParseFile Win32 palm_layout [] file_unknown = Fail.
Proof.
  apply (proj1 (ParseHeader_type_creator Win32 palm_layout file_unknown [])).
  - vm_compute. discriminate.
  - vm_compute. discriminate.
Defined.

Lemma ReadRecord_all_records_witness :
  exists buf, ReadRecord Win32 file_plain [94; 110; 114] 1 = Ret buf
              /\ Z.of_nat (length buf) = 4.
Proof.
  apply (ReadRecord_all_records Win32 palm_layout file_plain false 2 [94; 110; 114] 1).
  - vm_compute. reflexivity.
  - vm_compute. split; [discriminate | reflexivity].
  - vm_compute. discriminate.
  - lia.
Defined.

Lemma ParseHeader_doc_compression_witness :
  ParseHeader_doc Win32 file_badcomp false 2 [94; 110; 114] = Fail.
Proof.
  eapply (ParseHeader_doc_compression Win32 file_badcomp false 2 [94; 110; 114] _ 0 3).
  - vm_compute. reflexivity.
  - vm_compute. discriminate.
  - reflexivity.
  - reflexivity.
  - reflexivity.
Defined.

Lemma ParseHeader_doc_short_extension_witness :
  ParseHeader_doc Win32 file_short_ext false 2 [94; 114; 118] = Fail.
Proof.
  eapply (ParseHeader_doc_short_extension Win32 file_short_ext false 2 [94; 114; 118]).
  - vm_compute. reflexivity.
  - vm_compute. split; reflexivity.
Defined.

Lemma ParseHeader_doc_swaps_past_record_witness :
  ParseHeader_doc Win32 file_small_mobi true 2 [94; 118; 122] = Undef.
Proof.
  eapply (ParseHeader_doc_swaps_past_record Win32 file_small_mobi true 2 [94; 118; 122]).
  - vm_compute. reflexivity.
  - vm_compute. split; [discriminate | reflexivity].
  - reflexivity.
  - reflexivity.
  - intros _. split; reflexivity.
  - reflexivity.
Defined.

Lemma ExtraDataSize_one_trailer_witness :
  ExtraDataSize Win32 [97; 98; 0; 0; 131] 5 1 false = Ret 3.
Proof.
  apply (ExtraDataSize_one_trailer Win32 [97; 98; 0; 0; 131] 131).
  - vm_compute. split; [discriminate | reflexivity].
  - reflexivity.
  - lia.
  - vm_compute. discriminate.
Defined.

Lemma ExtraDataSize_multibyte_witness :
  ExtraDataSize Win32 [97; 98; 99; 1] 4 0 true = Ret 2.
Proof.
  apply (ExtraDataSize_multibyte Win32 [97; 98; 99; 1] 1).
  - vm_compute. split; [discriminate | reflexivity].
  - reflexivity.
  - lia.
  - vm_compute. discriminate.
Defined.

Lemma LoadDocument_uncompressed_witness :
  exists st, LoadDocument Win32 file_plain [] plain_state = Ret st
             /\ doc st = [97; 98; 99; 100].
Proof.
  apply (LoadDocument_uncompressed Win32 file_plain [] plain_state
           eq_refl eq_refl eq_refl [[97; 98; 99; 100]]).
  - reflexivity.
  - intros i r Hi. destruct i as [|i]; [|destruct i; discriminate].
    injection Hi as <-. vm_compute. reflexivity.
Defined.

Lemma UnpackCacheData_result_witness :
  exists j v, (j < 256)%nat
              /\ rd_be32 huff_zero_cache (24 + 4 * Z.of_nat j) = Ret v
              /\ bad_cache_entry v.
Proof.
  eapply (proj2 (proj2 (UnpackCacheData_result huff_zero_cache 24
                          (dict1 new_HuffDicDecompressor) false _ _ _))).
  reflexivity.
  Unshelve.
  - exact (alter (set_codeLen 0) 0%nat (dict1 new_HuffDicDecompressor)).
  - reflexivity.
  - vm_compute. reflexivity.
Defined.

Lemma SetHuffData_accepts_witness :
  exists hd,
    SetHuffData new_HuffDicDecompressor huff_zero_cache 1049 = Ret hd
    /\ baseTable hd + baseTableLen hd = 1049.
Proof.
  destruct (SetHuffData new_HuffDicDecompressor huff_zero_cache 1049) as [hd| |] eqn:E;
    [| vm_compute in E; discriminate | vm_compute in E; discriminate].
  exists hd. split; [reflexivity|].
  apply (SetHuffData_accepts new_HuffDicDecompressor huff_zero_cache 1049 hd E).
Defined.

Lemma GetBufForRecordData_holds_size_witness :
  5000 <= capacity 4096 {| bufDynamic := Some 5000; bufDynamicSize := 5000 |} BufDynamic
  /\ bufDynamicSize new_RecordBufs <= 5000.
Proof.
  apply (GetBufForRecordData_holds_size 4096 [10; 5000; 3000] new_RecordBufs 5000 BufDynamic
           {| bufDynamic := Some 5000; bufDynamicSize := 5000 |}).
  - unfold bufs_ok. cbn. lia.
  - cbn. auto.
Defined.

Lemma LoadDocRecordIntoBuffer_palmdoc_witness :
  LoadDocRecordIntoBuffer Win32 file_palm zero_buf palm_state 1 [] = Ret [72; 200].
Proof.
  apply (LoadDocRecordIntoBuffer_palmdoc Win32 file_palm zero_buf palm_state 1 [72; 200] []).
  - reflexivity.
  - reflexivity.
  - reflexivity.
  - vm_compute. reflexivity.
  - vm_compute. reflexivity.
  - cbn. lia.
Defined.
